(** * pods.py: the Kubernetes LLM diagnostics harness, embedded in Rocq

    The development follows [src/pods.py] function by function.

    - Python [str] values are [string]s; a character is read as a code
      point below 256.  The [str] methods the harness calls ([strip],
      [split], [replace], [startswith], [endswith], [in]) are defined
      below with Python's meaning.
    - A Python [dict] is an association list in insertion order with
      unique keys ([dict_set] overwrites in place, else appends), since
      [reason_llm] iterates [items()] in that order.
    - The outside world (the shell behind [subprocess.run], the HTTP
      endpoint behind [requests.post], the manifest files, standard
      input) is a class [World] of transition functions on an abstract
      world state; every function of the harness that touches it lives
      in the monad [M] of state and exceptions, and every interaction is
      appended to a trace together with what the world answered.
    - Terminal output ([console.print], [console.rule], [display_panel]
      on text, [os.system('clear')]) changes neither values nor control
      flow and is left out; the one place where [rich] can reject its
      argument (a model answer that is not text) is kept as [display_text]. *)

From Stdlib Require Import String Ascii List Bool Arith ZArith Lia.
From Stdlib Require Import Numbers.DecimalString.
Import ListNotations.
Open Scope string_scope.

Set Implicit Arguments.
Set Warnings "-register-all".

(* ================================================================== *)
(** ** Python strings *)
(* ================================================================== *)

(** The line feed, written ['\n'] in the source. *)
Definition LF : ascii := "010"%char.
Definition nl : string := String LF EmptyString.

(** [str.isspace] on one character: TAB..CR, FS..US, SPACE, NEL, NBSP. *)
Definition isspace (c : ascii) : bool :=
  let n := nat_of_ascii c in
  (((9 <=? n) && (n <=? 13)) || ((28 <=? n) && (n <=? 32))
   || (n =? 133) || (n =? 160))%nat.

Fixpoint lstrip (s : string) : string :=
  match s with
  | EmptyString => EmptyString
  | String c s' => if isspace c then lstrip s' else s
  end.

Fixpoint rstrip (s : string) : string :=
  match s with
  | EmptyString => EmptyString
  | String c s' =>
      match rstrip s' with
      | EmptyString => if isspace c then EmptyString else String c EmptyString
      | r => String c r
      end
  end.

(** [s.strip()] *)
Definition strip (s : string) : string := rstrip (lstrip s).

(** [s.split(sep)] for a one-character separator: never the empty list. *)
Fixpoint split (sep : ascii) (s : string) : list string :=
  match s with
  | EmptyString => [EmptyString]
  | String c s' =>
      if Ascii.eqb c sep then EmptyString :: split sep s'
      else match split sep s' with
           | h :: t => String c h :: t
           | [] => [String c EmptyString]
           end
  end.

(** [s.split()]: the maximal runs of non-space characters. *)
Fixpoint split_ws_from (cur : string) (s : string) : list string :=
  match s with
  | EmptyString => if cur =? "" then [] else [cur]
  | String c s' =>
      if isspace c
      then (if cur =? "" then split_ws_from "" s' else cur :: split_ws_from "" s')
      else split_ws_from (cur ++ String c "") s'
  end.

Definition split_ws (s : string) : list string := split_ws_from "" s.

(** [s.startswith(p)] *)
Definition startswith (p s : string) : bool := prefix p s.

(** [s.endswith(suf)] *)
Definition endswith (suf s : string) : bool :=
  (String.length suf <=? String.length s)%nat
  && (substring (String.length s - String.length suf) (String.length suf) s
      =? suf).

(** [sub in s] *)
Fixpoint contains (sub s : string) : bool :=
  prefix sub s
  || match s with
     | EmptyString => false
     | String _ s' => contains sub s'
     end.

(** [s.replace(old, new)] scans left to right and replaces the
    non-overlapping occurrences of [old].  [skip] counts the characters of
    an occurrence that are still to be passed over. *)
Fixpoint replace_from (old new : string) (skip : nat) (s : string) : string :=
  match s with
  | EmptyString => EmptyString
  | String c s' =>
      match skip with
      | S k => replace_from old new k s'
      | O =>
          if prefix old s
          then new ++ replace_from old new (String.length old - 1) s'
          else String c (replace_from old new 0 s')
      end
  end.

(** With an empty [old], Python puts [new] before every character and at
    the end. *)
Fixpoint intersperse (new s : string) : string :=
  match s with
  | EmptyString => new
  | String c s' => new ++ String c (intersperse new s')
  end.

Definition replace (old new s : string) : string :=
  match old with
  | EmptyString => intersperse new s
  | _ => replace_from old new 0 s
  end.

(** [l.index(x)]: [None] stands for [ValueError]. *)
Fixpoint list_index (x : string) (l : list string) : option nat :=
  match l with
  | [] => None
  | y :: l' => if y =? x then Some 0
               else match list_index x l' with
                    | Some i => Some (S i)
                    | None => None
                    end
  end.

(** [str(n)] for an integer. *)
Definition str_of_Z (z : Z) : string := NilZero.string_of_int (Z.to_int z).

(* ================================================================== *)
(** ** Python dictionaries, in insertion order *)
(* ================================================================== *)

Definition dict (V : Type) : Type := list (string * V).

Fixpoint dict_get {V} (k : string) (d : dict V) : option V :=
  match d with
  | [] => None
  | (k', v) :: d' => if k' =? k then Some v else dict_get k d'
  end.

(** [k in d] *)
Definition dict_mem {V} (k : string) (d : dict V) : bool :=
  match dict_get k d with Some _ => true | None => false end.

(** [d[k] = v] *)
Fixpoint dict_set {V} (k : string) (v : V) (d : dict V) : dict V :=
  match d with
  | [] => [(k, v)]
  | (k', v') :: d' =>
      if k' =? k then (k', v) :: d' else (k', v') :: dict_set k v d'
  end.

(** [d.get(k, default)] *)
Definition dict_get_default {V} (k : string) (default : V) (d : dict V) : V :=
  match dict_get k d with Some v => v | None => default end.


(* ================================================================== *)
(** ** The fragment of [re] that [reason_llm] uses *)
(* ================================================================== *)

(** A pattern is a sequence of literals and greedy one-or-more character
    classes. *)
Inductive regex_atom : Type :=
| Lit (s : string)
| Plus (cls : ascii -> bool).

Definition regex : Type := list regex_atom.

(** [strip_prefix p s] is what follows [p] in [s], when [s] starts with [p]. *)
Fixpoint strip_prefix (p s : string) : option string :=
  match p with
  | EmptyString => Some s
  | String a p' =>
      match s with
      | EmptyString => None
      | String b s' => if Ascii.eqb a b then strip_prefix p' s' else None
      end
  end.

(** One or more characters of class [cls], then the continuation [k]:
    first as many characters as there are, then one fewer each time [k]
    fails on what follows. *)
Fixpoint re_plus (cls : ascii -> bool) (k : string -> option string)
  (s : string) : option string :=
  match s with
  | EmptyString => None
  | String c s' =>
      if cls c
      then match re_plus cls k s' with
           | Some r => Some r
           | None => k s'
           end
      else None
  end.

(** Backtracking match of [re] at the start of [s]; the result is the text
    after the match. *)
Fixpoint re_match (re : regex) : string -> option string :=
  match re with
  | [] => fun s => Some s
  | Lit l :: re' =>
      fun s => match strip_prefix l s with
               | Some r => re_match re' r
               | None => None
               end
  | Plus cls :: re' => re_plus cls (re_match re')
  end.

(** [re.sub(re, repl, s)] for a literal replacement: leftmost matches,
    left to right, not overlapping; an empty match is replaced and the
    scan moves on by one character. *)
Fixpoint re_sub_from (re : regex) (repl : string) (skip : nat) (s : string)
  : string :=
  match s with
  | EmptyString =>
      match re_match re EmptyString with
      | Some _ => repl
      | None => EmptyString
      end
  | String c s' =>
      match skip with
      | S k => re_sub_from re repl k s'
      | O =>
          match re_match re s with
          | Some rest =>
              match String.length s - String.length rest with
              | S k => repl ++ re_sub_from re repl k s'
              | O => repl ++ String c (re_sub_from re repl 0 s')
              end
          | None => String c (re_sub_from re repl 0 s')
          end
      end
  end.

Definition re_sub (re : regex) (repl s : string) : string :=
  re_sub_from re repl 0 s.

(** [[A-Z_]] and [[a-z_]] *)
Definition upper_us (c : ascii) : bool :=
  let n := nat_of_ascii c in (((65 <=? n) && (n <=? 90)) || (n =? 95))%nat.

Definition lower_us (c : ascii) : bool :=
  let n := nat_of_ascii c in (((97 <=? n) && (n <=? 122)) || (n =? 95))%nat.

(** [r'--- [A-Z_]+ ---\n\{[a-z_]+\}\n--- END [A-Z_]+ ---'] *)
Definition block_re : regex :=
  [ Lit "--- "; Plus upper_us; Lit (" ---" ++ nl ++ "{"); Plus lower_us;
    Lit ("}" ++ nl ++ "--- END "); Plus upper_us; Lit " ---" ].

(* ================================================================== *)
(** ** The outside world and the monad of the harness *)
(* ================================================================== *)

(** What [subprocess.run(..., capture_output=True, text=True)] captures. *)
Record CompletedProcess : Type := mkProcess {
  returncode : Z;
  stdout : string;
  stderr : string
}.

(** The ways in which [subprocess.run] itself fails, whatever [check] is:
    the captured bytes are not text ([text=True] decodes strictly), the
    command holds a null character, or the shell cannot be started. *)
Inductive run_error : Type :=
| UndecodableOutput
| NullInCommand
| ShellNotStarted.

(** [subprocess.run] before [check] is looked at: a completed process, or
    one of its own exceptions. *)
Inductive run_outcome : Type :=
| Completed (p : CompletedProcess)
| RunFailed (e : run_error).

(** A decoded JSON document, which is also the Python value that
    [response.json()] hands to [call_llm]. *)
Inductive json : Type :=
| JNull
| JBool (b : bool)
| JNum (n : Z)
| JStr (s : string)
| JArr (l : list json)
| JObj (d : list (string * json)).

(** The body of an HTTP response: JSON, or text on which the decoder
    fails with message [err]. *)
Inductive body : Type :=
| NotJson (err : string)
| Json (j : json).

Record Response : Type := mkResponse {
  status_code : Z;
  reason : string;
  content : body
}.

(** [requests.post] either raises a [RequestException] (connection
    refused, timeout, ...) whose text is [msg], or returns a response. *)
Inductive post_result : Type :=
| PostRaised (msg : string)
| PostReturned (r : Response).

Class World (W : Type) : Type := {
  (** the shell: command line in, captured process or failure out *)
  shell : string -> W -> run_outcome * W;
  (** the inference endpoint: prompt and token bound of the payload in *)
  http_post : string -> Z -> W -> post_result * W;
  (** [open(path, "r").read()]; [None] when the file cannot be read *)
  read_file : string -> W -> option string * W;
  (** [input(...)]; [None] at end of input *)
  read_line : W -> option string * W
}.

Inductive exn : Type :=
| CalledProcessError (cmd : string) (rc : Z) (out err : string)
| RequestException (msg : string)
| KeyError (k : string)
| IndexError
| TypeError
| AttributeError
| UnicodeDecodeError
| ValueError
| OSError (path : string)
| EOFError.

Definition exn_of_run_error (e : run_error) : exn :=
  match e with
  | UndecodableOutput => UnicodeDecodeError
  | NullInCommand => ValueError
  | ShellNotStarted => OSError "/bin/sh"
  end.

(** What the harness did to the world, and what the world answered. *)
Inductive event : Type :=
| Ran (command : string) (check : bool) (outcome : run_outcome)
| Posted (prompt : string) (reply : post_result)
| Opened (path : string) (text : option string)
| Slept (seconds : nat)
| Asked (line : option string).

Inductive outcome (A : Type) : Type :=
| Ok (a : A)
| Raise (e : exn).

Arguments Ok {A} a.
Arguments Raise {A} e.

Record state (W : Type) : Type := mkState {
  world : W;
  trace : list event
}.

Definition M (W A : Type) : Type := state W -> outcome A * state W.

Definition ret {W A} (a : A) : M W A := fun st => (Ok a, st).

Definition raise {W A} (e : exn) : M W A := fun st => (Raise e, st).

Definition bind {W A B} (m : M W A) (f : A -> M W B) : M W B :=
  fun st =>
    match m st with
    | (Ok a, st') => f a st'
    | (Raise e, st') => (Raise e, st')
    end.

(** [try: m  except ...: h e] *)
Definition try_except {W A} (m : M W A) (h : exn -> M W A) : M W A :=
  fun st =>
    match m st with
    | (Ok a, st') => (Ok a, st')
    | (Raise e, st') => h e st'
    end.

Declare Scope harness_scope.
Delimit Scope harness_scope with harness.
Notation "x <- m ;; k" := (bind m (fun x => k))
  (at level 61, m at next level, right associativity) : harness_scope.
Notation "m ;;; k" := (bind m (fun _ => k))
  (at level 61, right associativity) : harness_scope.
Open Scope harness_scope.

(** One interaction with the world, logged with its answer. *)
Definition interact {W A} (f : W -> A * W) (log : A -> event) : M W A :=
  fun st =>
    let (a, w') := f (world st) in
    (Ok a, mkState w' (trace st ++ [log a])).

(** [time.sleep(n)] *)
Definition sleep {W} (seconds : nat) : M W unit :=
  fun st => (Ok tt, mkState (world st) (trace st ++ [Slept seconds])).

(* ================================================================== *)
(** ** [run_command] *)
(* ================================================================== *)

Section Harness.

Context {W : Type} `{World W}.

(** [subprocess.run(command, shell=True, check=check, ...)]: its own
    failures are raised whatever [check] is; with [check] a non-zero exit
    status raises [CalledProcessError]; without it the completed process
    is returned whatever its status. *)
Definition subprocess_run (command : string) (check : bool)
  : M W CompletedProcess :=
  outcome <- interact (shell command) (Ran command check) ;;
  match outcome with
  | RunFailed e => raise (exn_of_run_error e)
  | Completed result =>
      if check && negb (returncode result =? 0)%Z
      then raise (CalledProcessError command (returncode result)
                    (stdout result) (stderr result))
      else ret result
  end.

Definition run_command (command : string) (check : bool) : M W string :=
  try_except
    (result <- subprocess_run command check ;;
     ret (strip (stdout result)))
    (fun e =>
       match e with
       | CalledProcessError _ _ _ e_stderr =>
           if check then raise e else ret (strip e_stderr)
       | _ => raise e
       end).

(* ================================================================== *)
(** ** [call_llm] *)
(* ================================================================== *)

Definition LLM_API_URL : string := "<endpoint>".

(** [response.raise_for_status()]: [HTTPError], a [RequestException], for
    the 4xx and 5xx codes. *)
Definition raise_for_status (r : Response) : M W unit :=
  let code := status_code r in
  if ((400 <=? code) && (code <? 500))%Z
  then raise (RequestException
                (str_of_Z code ++ " Client Error: " ++ reason r
                 ++ " for url: " ++ LLM_API_URL))
  else if ((500 <=? code) && (code <? 600))%Z
  then raise (RequestException
                (str_of_Z code ++ " Server Error: " ++ reason r
                 ++ " for url: " ++ LLM_API_URL))
  else ret tt.

(** [response.json()]: when the body is not JSON it raises
    [requests.exceptions.JSONDecodeError], which is a [RequestException]
    (requests 2.27 and later). *)
Definition response_json (r : Response) : M W json :=
  match content r with
  | Json j => ret j
  | NotJson err => raise (RequestException err)
  end.

(** [v[k]] for a string [k] *)
Definition getitem_str (v : json) (k : string) : M W json :=
  match v with
  | JObj d => match dict_get k d with
              | Some x => ret x
              | None => raise (KeyError k)
              end
  | _ => raise TypeError
  end.

(** [v[0]] *)
Definition getitem_0 (v : json) : M W json :=
  match v with
  | JArr (x :: _) => ret x
  | JArr [] => raise IndexError
  | JStr (String c _) => ret (JStr (String c EmptyString))
  | JStr EmptyString => raise IndexError
  | JObj _ => raise (KeyError "0")
  | _ => raise TypeError
  end.

(** [v.get(k, default)] *)
Definition get_method (v : json) (k : string) (default : json) : M W json :=
  match v with
  | JObj d => ret (dict_get_default k default d)
  | _ => raise AttributeError
  end.

Definition call_llm (prompt : string) (max_tokens : Z) : M W json :=
  try_except
    (post <- interact (http_post prompt max_tokens) (Posted prompt) ;;
     response <- match post with
                 | PostRaised msg => raise (RequestException msg)
                 | PostReturned r => ret r
                 end ;;
     raise_for_status response ;;;
     response_data <- response_json response ;;
     choices <- getitem_str response_data "choices" ;;
     choice <- getitem_0 choices ;;
     message <- get_method choice "message" (JObj []) ;;
     get_method message "content"
       (JStr "Error: 'content' key not found in message."))
    (fun e =>
       match e with
       | RequestException msg => ret (JStr ("API Request Error: " ++ msg))
       | _ => raise e
       end).

(* ================================================================== *)
(** ** [perceive_context] *)
(* ================================================================== *)

(** The loop over the lines after ['Init Containers:']. *)
Fixpoint first_init_container (lines : list string) : string :=
  match lines with
  | [] => ""
  | line :: rest =>
      if endswith ":" (strip line)
      then replace ":" "" (strip line)
      else first_init_container rest
  end.

(** The [try] block that computes [init_container_name]. *)
Definition find_init_container_name (pod_description : string) : string :=
  let pod_desc_lines := split LF pod_description in
  match list_index "Init Containers:" pod_desc_lines with
  | Some init_section_index =>
      first_init_container (skipn (init_section_index + 1) pod_desc_lines)
  | None => ""
  end.

Definition perceive_context (pod_name classification : string)
  : M W (dict string) :=
  let context : dict string := [] in
  let desc_cmd := "kubectl describe pod " ++ pod_name in
  pod_description <- run_command desc_cmd false ;;
  let context := dict_set "pod_description" pod_description context in
  if classification =? "SchedulingFailure" then
    out <- run_command "kubectl describe nodes" false ;;
    ret (dict_set "node_descriptions" out context)
  else if classification =? "ImagePullFailure" then
    ret context
  else if classification =? "ConfigurationFailure" then
    out <- run_command "kubectl get configmaps" false ;;
    ret (dict_set "configmaps_in_namespace" out context)
  else if classification =? "InitializationFailure" then
    let init_container_name :=
      find_init_container_name (dict_get_default "pod_description" "" context) in
    if init_container_name =? "" then ret context
    else
      out <- run_command ("kubectl logs " ++ pod_name ++ " -c "
                          ++ init_container_name ++ " --previous") false ;;
      ret (dict_set "init_container_logs" out context)
  else if classification =? "RuntimeCrash" then
    out <- run_command ("kubectl logs " ++ pod_name ++ " --previous") false ;;
    ret (dict_set "container_logs" out context)
  else if classification =? "HealthCheckFailure" then
    let app_label :=
      replace "bad-readiness-" "bad-readiness" (replace "-pod" "" pod_name) in
    out <- run_command ("kubectl get endpoints -l app=" ++ app_label) false ;;
    ret (dict_set "service_endpoints" out context)
  else
    ret context.

(* ================================================================== *)
(** ** [reason_llm] *)
(* ================================================================== *)

Definition placeholder (key : string) : string := "{" ++ key ++ "}".

(** The [for key, value in context_package.items()] loop. *)
Definition substitute_items (context_package : dict string) (prompt : string)
  : string :=
  fold_left (fun prompt kv => replace (placeholder (fst kv)) (snd kv) prompt)
            context_package prompt.

(** The prompt that [reason_llm] hands to [call_llm]. *)
Definition assemble_prompt (context_package : dict string)
  (prompt_template : string) : string :=
  let prompt := prompt_template in
  match dict_get "kubectl_get_pod_output" context_package with
  | Some v => replace "{kubectl_get_pod_output}" v prompt
  | None =>
      let prompt := substitute_items context_package prompt in
      re_sub block_re "" prompt
  end.

Definition reason_llm (context_package : dict string) (prompt_template : string)
  : M W json :=
  call_llm (assemble_prompt context_package prompt_template) 4096.

(** [display_panel(content, ...)] with [is_syntax=False] builds
    [Text(content)], which accepts text only. *)
Definition display_text (content : json) : M W unit :=
  match content with
  | JStr _ => ret tt
  | _ => raise AttributeError
  end.

(** [v.strip()] on the value that [reason_llm] returned. *)
Definition strip_method (v : json) : M W string :=
  match v with
  | JStr s => ret (strip s)
  | _ => raise AttributeError
  end.

(* ================================================================== *)
(** ** Scenarios *)
(* ================================================================== *)

Record Scenario : Type := mkScenario {
  description : string;
  manifest_filename : string;
  pre_run_command : option string;
  post_run_command : option string;
  pod_name_pattern : string;
  cleanup_kind : string;
  cleanup_name : string
}.

Definition SCENARIO_FILES_DIR : string := "scenarios".

Definition SCENARIOS : dict Scenario :=
  [ ("1_insufficient_cpu",
     mkScenario
       "A pod requests more CPU than any node can provide, causing a 'Pending' state."
       "1_insufficient_cpu.yaml" None None
       "high-cpu-app-" "deployment" "high-cpu-app");
    ("2_taint_toleration",
     mkScenario
       "A pod cannot be scheduled because it lacks a toleration for a taint applied to all available nodes."
       "2_taint_toleration.yaml"
       (Some "kubectl taint nodes {node_name} special-workload=true:NoSchedule")
       (Some "kubectl taint nodes {node_name} special-workload=true:NoSchedule-")
       "app-needs-toleration" "pod" "app-needs-toleration");
    ("3_node_selector",
     mkScenario
       "A pod cannot be scheduled because its nodeSelector specifies a label that does not exist on any node."
       "3_node_selector.yaml" None None
       "app-needs-label" "pod" "app-needs-label");
    ("4_invalid_image_name",
     mkScenario
       "A pod enters ImagePullBackOff due to a typo in the container image name."
       "4_invalid_image_name.yaml" None None
       "bad-image-pod" "pod" "bad-image-pod");
    ("6_missing_configmap",
     mkScenario
       "A pod fails with CreateContainerConfigError because it references a ConfigMap that does not exist."
       "6_missing_configmap.yaml" None None
       "app-needs-config" "pod" "app-needs-config");
    ("7_failing_init_container",
     mkScenario
       "A pod is stuck in Init:CrashLoopBackOff because its initContainer fails repeatedly."
       "7_failing_init_container.yaml" None None
       "app-with-failing-init" "pod" "app-with-failing-init");
    ("8_app_logic_error",
     mkScenario
       "A pod enters CrashLoopBackOff because the application code exits with an error."
       "8_app_logic_error.yaml" None None
       "buggy-app-pod" "pod" "buggy-app-pod");
    ("9_oomkilled",
     mkScenario
       "A pod is terminated with OOMKilled because it consumes more memory than its limit."
       "9_oomkilled.yaml" None None
       "oom-pod" "pod" "oom-pod");
    ("10_bad_liveness_probe",
     mkScenario
       "A healthy pod enters CrashLoopBackOff because it is repeatedly killed by a misconfigured liveness probe."
       "10_bad_liveness_probe.yaml" None None
       "bad-liveness-pod" "pod" "bad-liveness-pod");
    ("11_bad_readiness_probe",
     mkScenario
       "A running pod does not receive traffic because its readiness probe is failing."
       "11_bad_readiness_probe.yaml" None None
       "bad-readiness-pod" "pod" "bad-readiness-pod") ].

(* ================================================================== *)
(** ** [get_worker_node] and [get_pod_name] *)
(* ================================================================== *)

(** The loop of [get_worker_node] over the lines of the node listing. *)
Fixpoint first_worker (lines : list string) : option string :=
  match lines with
  | [] => None
  | line :: rest =>
      if strip line =? "" then first_worker rest
      else match split_ws line with
           | [name] => Some name
           | name :: role :: _ =>
               if role =? "<none>" then Some name else first_worker rest
           | [] => first_worker rest
           end
  end.

Definition get_worker_node : M W (option string) :=
  nodes_output <-
    run_command
      "kubectl get nodes --no-headers -o custom-columns=NAME:.metadata.name,ROLE:.metadata.labels.node-role\.kubernetes\.io/master"
      true ;;
  ret (first_worker (split LF (strip nodes_output))).

(** The inner loop of [get_pod_name] over the lines of one listing. *)
Fixpoint first_matching (pattern : string) (pod_lines : list string)
  : option string :=
  match pod_lines with
  | [] => None
  | pod_line :: rest =>
      let pod_name := replace "pod/" "" pod_line in
      if startswith pattern pod_name then Some pod_name
      else first_matching pattern rest
  end.

(** The outer loop, [for _ in range(attempts)]. *)
Fixpoint poll_pods (pattern : string) (attempts : nat) : M W (option string) :=
  match attempts with
  | O => ret None
  | S remaining =>
      pods_output <- run_command "kubectl get pods -o name" false ;;
      match first_matching pattern (split LF pods_output) with
      | Some pod_name => ret (Some pod_name)
      | None => sleep 2 ;;; poll_pods pattern remaining
      end
  end.

Definition get_pod_name (pattern : string) : M W (option string) :=
  sleep 5 ;;;
  poll_pods pattern 5.

(* ================================================================== *)
(** ** [main] *)
(* ================================================================== *)

Definition classification_prompt : string := "
You are an expert Kubernetes SRE. Classify the failure of the pod below into ONE of these categories:
SchedulingFailure, ImagePullFailure, ConfigurationFailure, InitializationFailure, RuntimeCrash, HealthCheckFailure
--- POD DATA ---
{kubectl_get_pod_output}
--- END POD DATA ---
Respond with ONLY the category name.
".

Definition diagnosis_prompt_template : string := "
You are an expert Kubernetes SRE providing a detailed root cause analysis and remediation plan.
Analyze the following diagnostic data to determine the precise root cause of the failure.

### DIAGNOSTIC CONTEXT PACKAGE START ###
--- POD_DESCRIPTION ---
{pod_description}
--- END POD_DESCRIPTION ---

--- NODE_DESCRIPTIONS ---
{node_descriptions}
--- END NODE_DESCRIPTIONS ---

--- CONFIGMAPS_IN_NAMESPACE ---
{configmaps_in_namespace}
--- END CONFIGMAPS_IN_NAMESPACE ---

--- INIT_CONTAINER_LOGS ---
{init_container_logs}
--- END INIT_CONTAINER_LOGS ---

--- CONTAINER_LOGS ---
{container_logs}
--- END CONTAINER_LOGS ---

--- SERVICE_ENDPOINTS ---
{service_endpoints}
--- END SERVICE_ENDPOINTS ---
### DIAGNOSTIC CONTEXT PACKAGE END ###

Provide:
1.  **Root Cause:** A concise explanation of the failure.
2.  **Detailed Analysis:** An in-depth explanation of the evidence.
3.  **Remediation Plan:** Step-by-step instructions with corrected YAML or commands.
".

(** Python truth of [get_worker_node()] and [get_pod_name()] results:
    [None] and the empty string are false. *)
Definition truthy (o : option string) : bool :=
  match o with
  | Some (String _ _) => true
  | _ => false
  end.

(** [template.format(node_name=node)] for the command templates of
    [SCENARIOS], whose only replacement field is [{node_name}]. *)
Definition format_node_name (template : string) (node : option string)
  : string :=
  replace "{node_name}"
          (match node with Some n => n | None => "None" end) template.

(** [os.path.join(dir, name)] for a relative [name]. *)
Definition path_join (dir name : string) : string := dir ++ "/" ++ name.

(** [open(path, "r")] and [f.read()] *)
Definition open_read (path : string) : M W string :=
  r <- interact (read_file path) (Opened path) ;;
  match r with
  | Some text => ret text
  | None => raise (OSError path)
  end.

(** [input(...)] *)
Definition input : M W string :=
  r <- interact read_line Asked ;;
  match r with
  | Some line => ret line
  | None => raise EOFError
  end.

(** [act_display_results]: three panels; the last shows the model's answer. *)
Definition act_display_results (scenario : Scenario) (context : dict string)
  (llm_response : json) : M W unit :=
  display_text (JStr (description scenario)) ;;;
  display_text llm_response.

(** The [else] branch of [main], taken when a pod was identified. *)
Definition diagnose_pod (scenario_info : Scenario) (pod_name : string)
  : M W unit :=
  get_pod_output <- run_command ("kubectl get pod " ++ pod_name) true ;;
  answer <- reason_llm [("kubectl_get_pod_output", get_pod_output)]
                       classification_prompt ;;
  classification <- strip_method answer ;;
  full_context <- perceive_context pod_name classification ;;
  diagnosis_result <- reason_llm full_context diagnosis_prompt_template ;;
  act_display_results scenario_info full_context diagnosis_result.

Definition delete_command (scenario_info : Scenario) : string :=
  "kubectl delete " ++ cleanup_kind scenario_info ++ " "
  ++ cleanup_name scenario_info ++ " --grace-period=0 --force".

(** The cleanup lines at the end of the loop body. *)
Definition cleanup (node_for_taint : option string) (scenario_info : Scenario)
  : M W unit :=
  run_command (delete_command scenario_info) false ;;;
  match post_run_command scenario_info with
  | Some template =>
      run_command (format_node_name template node_for_taint) false ;;; ret tt
  | None => ret tt
  end.

(** The scenario is passed over by the [continue] at the top of the loop. *)
Definition skipped (node_for_taint : option string) (scenario_id : string)
  : bool :=
  contains "taint" scenario_id && negb (truthy node_for_taint).

(** One iteration of the [for] loop of [main]. *)
Definition run_scenario (node_for_taint : option string)
  (scenario_id : string) (scenario_info : Scenario) : M W unit :=
  if skipped node_for_taint scenario_id then ret tt
  else
    match pre_run_command scenario_info with
    | Some template =>
        run_command (format_node_name template node_for_taint) true ;;; ret tt
    | None => ret tt
    end ;;;
    let manifest_path :=
      path_join SCENARIO_FILES_DIR (manifest_filename scenario_info) in
    manifest_content <- open_read manifest_path ;;
    run_command ("kubectl apply -f " ++ manifest_path) true ;;;
    sleep 15 ;;;
    pod_name <- get_pod_name (pod_name_pattern scenario_info) ;;
    match pod_name with
    | Some (String c rest) => diagnose_pod scenario_info (String c rest)
    | _ => ret tt
    end ;;;
    cleanup node_for_taint scenario_info ;;;
    sleep 5 ;;;
    input ;;;
    ret tt.

Fixpoint for_each {A} (l : list A) (body : A -> M W unit) : M W unit :=
  match l with
  | [] => ret tt
  | x :: rest => body x ;;; for_each rest body
  end.

Definition main : M W unit :=
  node_for_taint <- get_worker_node ;;
  for_each SCENARIOS
           (fun item => run_scenario node_for_taint (fst item) (snd item)).

End Harness.

(* ================================================================== *)
(** ** Scripted worlds *)
(* ================================================================== *)

(** A world that answers from a script.  Its state is a clock that counts
    the shell commands run so far, so that a listing can change from one
    poll to the next. *)
Record Script : Type := mkScript {
  on_shell : nat -> string -> run_outcome;
  on_post : string -> post_result;
  on_read : string -> option string;
  on_input : option string
}.

Definition scripted (sc : Script) : World nat := {|
  shell := fun cmd clock => (on_shell sc clock cmd, S clock);
  http_post := fun prompt _ clock => (on_post sc prompt, clock);
  read_file := fun path clock => (on_read sc path, clock);
  read_line := fun clock => (on_input sc, clock)
|}.

(** Where a run starts: clock zero, nothing done yet. *)
Definition start : state nat := mkState 0 [].

(** A well-formed answer of the endpoint carrying [text]. *)
Definition chat_completion (text : string) : post_result :=
  PostReturned
    (mkResponse 200 "OK"
       (Json (JObj [("choices",
                     JArr [JObj [("message",
                                  JObj [("content", JStr text)])]])]))).

(* ================================================================== *)
(** ** Vocabulary of the properties *)
(* ================================================================== *)


(** [y] is another string than [x]. *)
Definition is_not (x y : string) : bool := negb (y =? x).

(** The trimmed line ends with a colon, as the line that names a
    container does in a description. *)
Definition ends_with_colon (line : string) : bool := endswith ":" (strip line).

(** The description text names an init container: it has a line that is
    exactly the section header ['Init Containers:']; after the first such
    line there is a line whose trimmed text ends with a colon; and the
    first of these, without its colons, is the non-empty [name].  This
    says where the name stands in the text, without running the scan of
    [perceive_context]. *)
Definition names_init_container (description name : string) : Prop :=
  exists before between line after,
    split LF description
    = (before ++ "Init Containers:" :: between ++ line :: after)%list
    /\ forallb (is_not "Init Containers:") before = true
    /\ forallb (fun l => negb (ends_with_colon l)) between = true
    /\ ends_with_colon line = true
    /\ name = replace ":" "" (strip line)
    /\ name <> "".

(** The character [c] does not occur in [s]. *)
Fixpoint no_char (c : ascii) (s : string) : bool :=
  match s with
  | EmptyString => true
  | String a s' => negb (Ascii.eqb a c) && no_char c s'
  end.

(** Every character of [s] is in the class [cls]. *)
Fixpoint all_in (cls : ascii -> bool) (s : string) : bool :=
  match s with
  | EmptyString => true
  | String c s' => cls c && all_in cls s'
  end.

(** The text ends, or goes on with a character outside [cls]. *)
Definition stops (cls : ascii -> bool) (s : string) : bool :=
  match s with
  | EmptyString => true
  | String c _ => negb (cls c)
  end.

(** A block of a prompt template: a labeled header line, the placeholder
    line of a key, and a footer line. *)
Definition header (label : string) : string := "--- " ++ label ++ " ---".

Definition footer (label : string) : string := "--- END " ++ label ++ " ---".

Definition block (label key : string) : string :=
  header label ++ nl ++ placeholder key ++ nl ++ footer label.

(** The block once a value stands in place of the placeholder. *)
Definition filled_block (label value : string) : string :=
  header label ++ nl ++ value ++ nl ++ footer label.

(** No match of the block pattern starts inside [text] when [rest]
    follows it: [re.sub] copies [text] as it is.  A value that completes
    a block in its place, or text that ends like a block short of its
    closing dashes before a header, is what this excludes. *)
Fixpoint block_free (text rest : string) : bool :=
  match text with
  | EmptyString => true
  | String _ text' =>
      match re_match block_re (text ++ rest) with
      | Some _ => false
      | None => block_free text' rest
      end
  end.

(** No occurrence of [p] starts inside [text] when [rest] follows it:
    [replace] copies [text] as it is. *)
Fixpoint starts_nowhere (p text rest : string) : bool :=
  match text with
  | EmptyString => true
  | String _ text' =>
      negb (prefix p (text ++ rest)) && starts_nowhere p text' rest
  end.

(** [r'\{[a-z_]+\}']: the placeholder line of a block. *)
Definition placeholder_re : regex := [ Lit "{"; Plus lower_us; Lit "}" ].

(** [re.search(re, s) is not None] *)
Fixpoint re_search (re : regex) (s : string) : bool :=
  match re_match re s with
  | Some _ => true
  | None => match s with
            | EmptyString => false
            | String _ s' => re_search re s'
            end
  end.

(** No key of the package still has its placeholder in [text]. *)
Definition no_key_placeholder (context_package : dict string) (text : string)
  : bool :=
  forallb (fun kv => negb (contains (placeholder (fst kv)) text))
          context_package.

(** The decoded body has the shape [call_llm] reads without raising and
    holds text where the answer is expected. *)
Definition well_shaped (j : json) : bool :=
  match j with
  | JObj d =>
      match dict_get "choices" d with
      | Some (JArr (JObj choice :: _)) =>
          match dict_get "message" choice with
          | None => true
          | Some (JObj message) =>
              match dict_get "content" message with
              | None => true
              | Some (JStr _) => true
              | Some _ => false
              end
          | Some _ => false
          end
      | _ => false
      end
  | _ => false
  end.

(** The replies on which [call_llm] returns text: a transport failure, an
    error status, a body that is not JSON, or a well-shaped document. *)
Definition yields_text (p : post_result) : bool :=
  match p with
  | PostRaised _ => true
  | PostReturned r =>
      let code := status_code r in
      if ((400 <=? code) && (code <? 500))%Z then true
      else if ((500 <=? code) && (code <? 600))%Z then true
      else match content r with
           | NotJson _ => true
           | Json j => well_shaped j
           end
  end.

(** The Python value is a [str]. *)
Definition is_text (v : json) : Prop :=
  match v with JStr _ => True | _ => False end.

(** The step went well: the command's output was captured and, in strict
    mode, its exit status is 0; the file was read; the endpoint's reply is
    one on which [call_llm] returns text.  Nothing is asked of a pause or
    of the answer to the prompt that ends an iteration. *)
Definition step_ok (ev : event) : bool :=
  match ev with
  | Ran _ check (Completed p) => negb check || (returncode p =? 0)%Z
  | Ran _ _ (RunFailed _) => false
  | Posted _ reply => yields_text reply
  | Opened _ (Some _) => true
  | Opened _ None => false
  | Slept _ => true
  | Asked _ => true
  end.

Section Observations.

Context {W : Type} `{World W}.

(** What [subprocess.run] gets for [command] in state [st]. *)
Definition outcome_of (command : string) (st : state W) : run_outcome :=
  fst (shell command (world st)).

(** The state after running [command]. *)
Definition ran (command : string) (check : bool) (st : state W) : state W :=
  mkState (snd (shell command (world st)))
          (trace st ++ [Ran command check (outcome_of command st)]).

(** The state after [time.sleep(seconds)]. *)
Definition slept (seconds : nat) (st : state W) : state W :=
  mkState (world st) (trace st ++ [Slept seconds]).

(** The state after posting [prompt]. *)
Definition posted (prompt : string) (max_tokens : Z) (st : state W) : state W :=
  mkState (snd (http_post prompt max_tokens (world st)))
          (trace st
           ++ [Posted prompt (fst (http_post prompt max_tokens (world st)))]).

(** The listing of the pods that [get_pod_name] is given in state [st],
    when the executor returns one. *)
Definition listing (st : state W) : option string :=
  match outcome_of "kubectl get pods -o name" st with
  | Completed p => Some (strip (stdout p))
  | RunFailed _ => None
  end.

(** What [get_pod_name] finds when it lists the pods in state [st]. *)
Definition seen (pattern : string) (st : state W) : option string :=
  match listing st with
  | Some pods_output => first_matching pattern (split LF pods_output)
  | None => None
  end.

(** The executor returns a listing in state [st], and no pod in it
    matches [pattern]. *)
Definition no_match (pattern : string) (st : state W) : bool :=
  match listing st with
  | Some pods_output =>
      match first_matching pattern (split LF pods_output) with
      | None => true
      | Some _ => false
      end
  | None => false
  end.

(** From one poll to the next: the listing, then the two-second pause. *)
Definition next_poll (st : state W) : state W :=
  slept 2 (ran "kubectl get pods -o name" false st).

(** The state in which poll number [i], counted from zero, is made when
    [get_pod_name] starts in [st]. *)
Definition poll_state (i : nat) (st : state W) : state W :=
  Nat.iter i next_poll (slept 5 st).

(** Poll number [i] returns a listing with no pod for [pattern]. *)
Definition miss (pattern : string) (st : state W) (i : nat) : bool :=
  no_match pattern (poll_state i st).

(** The commands that make up the cleanup of a scenario, in order, with
    what the shell answered to each. *)
Definition cleanup_events (node_for_taint : option string)
  (scenario_info : Scenario) (deleted torn_down : run_outcome) : list event :=
  Ran (delete_command scenario_info) false deleted
  :: match post_run_command scenario_info with
     | Some template =>
         [Ran (format_node_name template node_for_taint) false torn_down]
     | None => []
     end.

(** [m] only adds to the trace, whether it returns or raises. *)
Definition grows {A} (m : M W A) : Prop :=
  forall st, exists added, trace (snd (m st)) = (trace st ++ added)%list.

(** [m] only adds to the trace, and when every step it added went well it
    returns a value in [P]. *)
Definition returns_when_clean {A} (P : A -> Prop) (m : M W A) : Prop :=
  forall st, exists added,
    trace (snd (m st)) = (trace st ++ added)%list
    /\ (forallb step_ok added = true ->
        exists a, fst (m st) = Ok a /\ P a).

(** [m] only adds to the trace, and when every step it added went well
    the cleanup commands of the scenario are among them. *)
Definition cleans_up_when_clean {A} (node_for_taint : option string)
  (scenario_info : Scenario) (m : M W A) : Prop :=
  forall st, exists added,
    trace (snd (m st)) = (trace st ++ added)%list
    /\ (forallb step_ok added = true ->
        exists before deleted torn_down after,
          added = (before
                   ++ cleanup_events node_for_taint scenario_info
                        deleted torn_down
                   ++ after)%list).

End Observations.

(* ================================================================== *)
(** ** Scripted worlds used as concrete inputs *)
(* ================================================================== *)

(** No matching pod on the first four listings, one on the fifth. *)
Definition fifth_poll_script : Script := mkScript
  (fun clock cmd =>
     if (clock <? 4)%nat then Completed (mkProcess 0 ("pod/other-app" ++ nl) "")
     else Completed (mkProcess 0 ("pod/other-app" ++ nl
                                  ++ "pod/high-cpu-app-7d9f") ""))
  (fun _ => PostRaised "unreachable")
  (fun _ => None) None.

(** A cluster that cannot be reached: every command fails. *)
Definition no_pod_script : Script := mkScript
  (fun _ _ => Completed (mkProcess 1 ""
                           "The connection to the server was refused"))
  (fun _ => PostRaised "unreachable")
  (fun _ => None) None.

(** The taint scenario on a cluster where the deletion fails, the
    endpoint times out, and [kubectl get pod] would fail for every pod
    but the one of the scenario. *)
Definition taint_script : Script := mkScript
  (fun _ cmd =>
     if prefix "kubectl delete" cmd
     then Completed (mkProcess 1 "" "Error from server (NotFound)")
     else if cmd =? "kubectl get pods -o name"
     then Completed (mkProcess 0 "pod/app-needs-toleration" "")
     else if cmd =? "kubectl get pod app-needs-toleration"
     then Completed (mkProcess 0 "app-needs-toleration 0/1 Pending" "")
     else if prefix "kubectl get pod " cmd
     then Completed (mkProcess 1 "" "Error from server (NotFound)")
     else Completed (mkProcess 0 "ok" ""))
  (fun _ => PostRaised "Read timed out.")
  (fun _ => Some "kind: Pod")
  (Some "").

(** A cluster that lists one worker node and rejects every manifest. *)
Definition apply_fails_script : Script := mkScript
  (fun _ cmd =>
     if prefix "kubectl get nodes" cmd
     then Completed (mkProcess 0 "node1   <none>" "")
     else if prefix "kubectl apply" cmd
     then Completed (mkProcess 1 "" "error: unable to recognize manifest")
     else Completed (mkProcess 0 "" ""))
  (fun _ => PostRaised "unreachable")
  (fun _ => Some "kind: Deployment")
  (Some "").

(** A listing that fails part of the way. *)
Definition failing_describe_script : Script := mkScript
  (fun _ _ => Completed (mkProcess 1 "  partial listing "
                           "Error from server (NotFound)"))
  (fun _ => PostRaised "unreachable")
  (fun _ => None) None.

(** An endpoint that answers 200 with the empty JSON object. *)
Definition empty_object_script : Script := mkScript
  (fun _ _ => Completed (mkProcess 0 "" ""))
  (fun _ => PostReturned (mkResponse 200 "OK" (Json (JObj []))))
  (fun _ => None) None.

(** A pod whose previous logs are not text: the description is captured,
    the logs cannot be decoded. *)
Definition binary_logs_script : Script := mkScript
  (fun _ cmd =>
     if prefix "kubectl logs" cmd then RunFailed UndecodableOutput
     else Completed (mkProcess 0 "Name: buggy-app-pod" ""))
  (fun _ => PostRaised "unreachable")
  (fun _ => None) None.

(** A pod with an init container: the description names it, and its
    previous logs do not exist. *)
Definition init_container_script : Script := mkScript
  (fun _ cmd =>
     if prefix "kubectl describe pod" cmd
     then Completed (mkProcess 0 "Name: app-with-failing-init
Init Containers:
  init-db:
    Image: busybox
Containers:
  app:" "")
     else Completed (mkProcess 1 "" "previous terminated container not found"))
  (fun _ => PostRaised "unreachable")
  (fun _ => None) None.

(** The entry ["2_taint_toleration"] of [SCENARIOS]. *)
Definition taint_scenario : Scenario :=
  mkScenario
    "A pod cannot be scheduled because it lacks a toleration for a taint applied to all available nodes."
    "2_taint_toleration.yaml"
    (Some "kubectl taint nodes {node_name} special-workload=true:NoSchedule")
    (Some "kubectl taint nodes {node_name} special-workload=true:NoSchedule-")
    "app-needs-toleration" "pod" "app-needs-toleration".
(* ================================================================== *)
(** ** Vocabulary of the further properties *)
(* ================================================================== *)

(** The request failed before a decoded body was at hand: [requests.post]
    raised, the status is an error status, or the body is not JSON. *)
Definition request_failed (p : post_result) : bool :=
  match p with
  | PostRaised _ => true
  | PostReturned r =>
      ((400 <=? status_code r) && (status_code r <? 600))%Z
      || match content r with
         | NotJson _ => true
         | Json _ => false
         end
  end.

(** An answer of the endpoint with the given status and decoded body. *)
Definition json_reply (status : Z) (j : json) : post_result :=
  PostReturned (mkResponse status "" (Json j)).

(** A world whose endpoint always gives the same reply and whose shell
    always completes with the same process. *)
Definition constant_script (p : CompletedProcess) (reply : post_result)
  : Script :=
  mkScript (fun _ _ => Completed p) (fun _ => reply) (fun _ => None) None.

(** A command that only reads the cluster: [kubectl describe], [get] or
    [logs]. *)
Definition read_only (command : string) : bool :=
  prefix "kubectl describe " command
  || prefix "kubectl get " command
  || prefix "kubectl logs " command.

(** A command run in tolerant mode that only reads the cluster. *)
Definition reads_only (ev : event) : bool :=
  match ev with
  | Ran command false _ => read_only command
  | _ => false
  end.

(** A block of a template, given by its label and its key, with the text
    that follows it up to the next block. *)
Definition segment : Type := (string * string * string)%type.

Definition well_formed_segment (seg : segment) : bool :=
  let '(label, key, after) := seg in
  negb (label =? "") && all_in upper_us label
  && negb (key =? "") && all_in lower_us key
  && no_char "{" after.

(** The blocks where the keys of [done] are already filled in. *)
Fixpoint filled_where (done : dict string) (segs : list segment) : string :=
  match segs with
  | [] => ""
  | (label, key, after) :: rest =>
      match dict_get key done with
      | Some value => filled_block label value
      | None => block label key
      end ++ after ++ filled_where done rest
  end.

(** The blocks as they stand in a template. *)
Definition blocks_of (segs : list segment) : string := filled_where [] segs.

(** The blocks after assembly: filled for the keys of the context, cut
    out for the others. *)
Fixpoint assembled_blocks (context : dict string) (segs : list segment)
  : string :=
  match segs with
  | [] => ""
  | (label, key, after) :: rest =>
      match dict_get key context with
      | Some value => filled_block label value ++ after
      | None => after
      end ++ assembled_blocks context rest
  end.

(** No string occurs twice. *)
Fixpoint unique (l : list string) : bool :=
  match l with
  | [] => true
  | x :: rest => negb (existsb (String.eqb x) rest) && unique rest
  end.

(** Keys without a closing brace, values without an opening brace. *)
Definition plain_entry (kv : string * string) : bool :=
  no_char "}" (fst kv) && no_char "{" (snd kv).

(** The text of the diagnosis prompt before its first block. *)
Definition diagnosis_preamble : string := "
You are an expert Kubernetes SRE providing a detailed root cause analysis and remediation plan.
Analyze the following diagnostic data to determine the precise root cause of the failure.

### DIAGNOSTIC CONTEXT PACKAGE START ###
".

(** The text of the diagnosis prompt after its last block. *)
Definition diagnosis_closing : string := "
### DIAGNOSTIC CONTEXT PACKAGE END ###

Provide:
1.  **Root Cause:** A concise explanation of the failure.
2.  **Detailed Analysis:** An in-depth explanation of the evidence.
3.  **Remediation Plan:** Step-by-step instructions with corrected YAML or commands.
".

(** The six blocks of the diagnosis prompt of [main]. *)
Definition diagnosis_segments : list segment :=
  [ ("POD_DESCRIPTION", "pod_description", nl ++ nl);
    ("NODE_DESCRIPTIONS", "node_descriptions", nl ++ nl);
    ("CONFIGMAPS_IN_NAMESPACE", "configmaps_in_namespace", nl ++ nl);
    ("INIT_CONTAINER_LOGS", "init_container_logs", nl ++ nl);
    ("CONTAINER_LOGS", "container_logs", nl ++ nl);
    ("SERVICE_ENDPOINTS", "service_endpoints", diagnosis_closing) ].

(** A step of [get_pod_name]: a listing of the pods in tolerant mode, or
    a pause. *)
Definition is_listing (ev : event) : bool :=
  match ev with
  | Ran command false _ => command =? "kubectl get pods -o name"
  | _ => false
  end.

Definition is_pause (ev : event) : bool :=
  match ev with
  | Slept _ => true
  | _ => false
  end.

(** The seconds slept in a trace. *)
Fixpoint seconds_slept (t : list event) : nat :=
  match t with
  | [] => 0
  | Slept n :: rest => n + seconds_slept rest
  | _ :: rest => seconds_slept rest
  end.

(** A cluster with one worker node on which every command succeeds. *)
Definition quiet_script : Script := mkScript
  (fun _ cmd =>
     if prefix "kubectl get nodes" cmd
     then Completed (mkProcess 0 "master1   true
node1   <none>" "")
     else Completed (mkProcess 0 "" ""))
  (fun _ => PostRaised "unreachable")
  (fun _ => Some "kind: Pod")
  (Some "").


(** A non-empty text without white space. *)
Definition is_word (w : string) : bool :=
  negb (w =? "") && all_in (fun c => negb (isspace c)) w.


(** A step of [get_pod_name]: a listing or a pause. *)
Definition polls (ev : event) : bool := is_listing ev || is_pause ev.

Section FurtherObservations.

Context {W : Type} `{World W}.

(** The state after [open(path).read()]. *)
Definition opened (path : string) (st : state W) : state W :=
  mkState (snd (read_file path (world st)))
          (trace st ++ [Opened path (fst (read_file path (world st)))]).

(** The manifest of a scenario and the command that applies it. *)
Definition manifest_path (scenario_info : Scenario) : string :=
  path_join SCENARIO_FILES_DIR (manifest_filename scenario_info).

Definition apply_command (scenario_info : Scenario) : string :=
  "kubectl apply -f " ++ manifest_path scenario_info.

(** The state after the pre-run command of a scenario, when it has one. *)
Definition after_pre_run (node_for_taint : option string)
  (scenario_info : Scenario) (st : state W) : state W :=
  match pre_run_command scenario_info with
  | Some template => ran (format_node_name template node_for_taint) true st
  | None => st
  end.

(** The state in which the identification of the pod starts: after the
    pre-run command, the reading of the manifest, its application and
    the fifteen seconds of waiting. *)
Definition after_setup (node_for_taint : option string)
  (scenario_info : Scenario) (st : state W) : state W :=
  slept 15
    (ran (apply_command scenario_info) true
       (opened (manifest_path scenario_info)
          (after_pre_run node_for_taint scenario_info st))).

(** The setup of a scenario goes well from [st]: the pre-run command,
    when there is one, exits 0; the manifest is read; [kubectl apply]
    exits 0. *)
Definition setup_succeeds (node_for_taint : option string)
  (scenario_info : Scenario) (st : state W) : Prop :=
  (forall template,
      pre_run_command scenario_info = Some template ->
      exists p,
        outcome_of (format_node_name template node_for_taint) st = Completed p
        /\ returncode p = 0%Z)
  /\ (exists text,
         fst (read_file (manifest_path scenario_info)
                (world (after_pre_run node_for_taint scenario_info st)))
         = Some text)
  /\ (exists p,
         outcome_of (apply_command scenario_info)
           (opened (manifest_path scenario_info)
              (after_pre_run node_for_taint scenario_info st))
         = Completed p
         /\ returncode p = 0%Z).

End FurtherObservations.

(* ================================================================== *)
(** ** The monad and [run_command] *)
(* ================================================================== *)

Section MonadFacts.

Context {W : Type} `{World W}.

Lemma bind_ok {A B} (m : M W A) (f : A -> M W B) st a st' :
  m st = (Ok a, st') -> bind m f st = f a st'.
Proof. intros E. unfold bind. now rewrite E. Qed.

Lemma bind_raise {A B} (m : M W A) (f : A -> M W B) st e st' :
  m st = (Raise e, st') -> bind m f st = (Raise e, st').
Proof. intros E. unfold bind. now rewrite E. Qed.

Ltac run_the_command :=
  cbv beta iota delta [run_command try_except bind subprocess_run interact
                       ran outcome_of ret raise].

(** A command whose output is captured, in tolerant mode. *)
Lemma run_command_tolerant command st p :
  outcome_of command st = Completed p ->
  run_command command false st = (Ok (strip (stdout p)), ran command false st).
Proof.
  run_the_command.
  destruct (shell command (world st)) as [o w']. simpl. now intros ->.
Qed.

Lemma run_command_strict_ok command st p :
  outcome_of command st = Completed p -> returncode p = 0%Z ->
  run_command command true st = (Ok (strip (stdout p)), ran command true st).
Proof.
  run_the_command.
  destruct (shell command (world st)) as [o w']. simpl.
  intros -> ->. reflexivity.
Qed.

Lemma run_command_strict_fail command st p :
  outcome_of command st = Completed p -> returncode p <> 0%Z ->
  run_command command true st
  = (Raise (CalledProcessError command (returncode p) (stdout p) (stderr p)),
     ran command true st).
Proof.
  run_the_command.
  destruct (shell command (world st)) as [o w']. simpl.
  intros -> Hrc. apply Z.eqb_neq in Hrc. rewrite Hrc. reflexivity.
Qed.

(** A failure of [subprocess.run] itself leaves [run_command] in either
    mode: the handler is for [CalledProcessError] only. *)
Lemma run_command_failed command check st e :
  outcome_of command st = RunFailed e ->
  run_command command check st
  = (Raise (exn_of_run_error e), ran command check st).
Proof.
  run_the_command.
  destruct (shell command (world st)) as [o w']. simpl.
  intros ->. now destruct e.
Qed.

Lemma sleep_run seconds (st : state W) :
  sleep seconds st = (Ok tt, slept seconds st).
Proof. reflexivity. Qed.

End MonadFacts.

(* ================================================================== *)
(** ** Strings and [replace] *)
(* ================================================================== *)

Lemma append_nil_r s : s ++ "" = s.
Proof. induction s; simpl; congruence. Qed.

Lemma append_assoc s1 s2 s3 : (s1 ++ s2) ++ s3 = s1 ++ s2 ++ s3.
Proof. induction s1; simpl; congruence. Qed.

Lemma length_append s1 s2 :
  String.length (s1 ++ s2) = String.length s1 + String.length s2.
Proof. induction s1; simpl; congruence. Qed.

Lemma no_char_append c s1 s2 :
  no_char c (s1 ++ s2) = no_char c s1 && no_char c s2.
Proof.
  induction s1 as [|a s1 IH]; simpl; [reflexivity|].
  rewrite IH. now rewrite andb_assoc.
Qed.

Lemma prefix_append p s : prefix p (p ++ s) = true.
Proof.
  induction p as [|a p IH]; simpl.
  - now destruct s.
  - destruct (ascii_dec a a); [assumption | congruence].
Qed.

Lemma prefix_head a p b s : prefix (String a p) (String b s) = true -> a = b.
Proof. simpl. destruct (ascii_dec a b); [trivial | discriminate]. Qed.

(** Passing over the rest of an occurrence. *)
Lemma replace_from_skip old new s1 s2 :
  replace_from old new (String.length s1) (s1 ++ s2)
  = replace_from old new 0 s2.
Proof. induction s1 as [|a s1 IH]; simpl; [reflexivity | assumption]. Qed.

(** An occurrence at the head is replaced. *)
Lemma replace_from_here a old new s :
  replace_from (String a old) new 0 (String a old ++ s)
  = new ++ replace_from (String a old) new 0 s.
Proof.
  change (String a old ++ s) with (String a (old ++ s)).
  cbn [replace_from].
  change (String a (old ++ s)) with (String a old ++ s).
  rewrite prefix_append. f_equal.
  replace (String.length (String a old) - 1) with (String.length old)
    by (simpl; lia).
  apply replace_from_skip.
Qed.

(** Text without the first character of [old] is copied. *)
Lemma replace_from_copy a old new s1 s2 :
  no_char a s1 = true ->
  replace_from (String a old) new 0 (s1 ++ s2)
  = s1 ++ replace_from (String a old) new 0 s2.
Proof.
  induction s1 as [|b s1 IH]; intros Hn; [reflexivity|].
  simpl in Hn. apply andb_prop in Hn as [Hb Hn].
  change (String b s1 ++ s2) with (String b (s1 ++ s2)).
  cbn [replace_from].
  destruct (prefix (String a old) (String b (s1 ++ s2))) eqn:E.
  - apply prefix_head in E. subst b. rewrite Ascii.eqb_refl in Hb. discriminate.
  - simpl. f_equal. now apply IH.
Qed.

Lemma replace_from_absent a old new s :
  no_char a s = true -> replace_from (String a old) new 0 s = s.
Proof.
  intros Hn. rewrite <- (append_nil_r s) at 1.
  rewrite replace_from_copy by assumption. simpl. apply append_nil_r.
Qed.

(** One occurrence between two texts that lack its first character. *)
Lemma replace_between a old new pre post :
  no_char a pre = true -> no_char a post = true ->
  replace (String a old) new (pre ++ String a old ++ post)
  = pre ++ new ++ post.
Proof.
  intros Hpre Hpost. unfold replace.
  rewrite replace_from_copy by assumption. f_equal.
  rewrite replace_from_here. f_equal. now apply replace_from_absent.
Qed.

Lemma placeholder_head key : placeholder key = String "{" (key ++ "}").
Proof. reflexivity. Qed.

(** A placeholder standing alone between two brace-free texts. *)
Lemma replace_placeholder key value pre post :
  no_char "{" pre = true -> no_char "{" post = true ->
  replace (placeholder key) value (pre ++ placeholder key ++ post)
  = pre ++ value ++ post.
Proof. rewrite placeholder_head. apply replace_between. Qed.

Lemma assemble_prompt_sentinel context value template :
  dict_get "kubectl_get_pod_output" context = Some value ->
  assemble_prompt context template
  = replace "{kubectl_get_pod_output}" value template.
Proof. intros E. unfold assemble_prompt. now rewrite E. Qed.

Lemma replace_from_step old new c s :
  prefix old (String c s) = false ->
  replace_from old new 0 (String c s) = String c (replace_from old new 0 s).
Proof. intros E. cbn [replace_from]. now rewrite E. Qed.

Lemma prefix_cons a p b s :
  prefix (String a p) (String b s) = Ascii.eqb a b && prefix p s.
Proof.
  cbn [prefix]. destruct (ascii_dec a b) as [->|Hn].
  - now rewrite Ascii.eqb_refl.
  - apply Ascii.eqb_neq in Hn. now rewrite Hn.
Qed.

Lemma contains_cons_false p c s :
  contains p (String c s) = false ->
  prefix p (String c s) = false /\ contains p s = false.
Proof. cbn [contains]. intros E. now apply orb_false_elim in E. Qed.

Lemma replace_from_not_contained a old new s :
  contains (String a old) s = false ->
  replace_from (String a old) new 0 s = s.
Proof.
  induction s as [|c s IH]; intros Hc; [reflexivity|].
  apply contains_cons_false in Hc as [Hp Hc].
  cbn [replace_from]. rewrite Hp. f_equal. now apply IH.
Qed.

Lemma contains_append p s1 s2 : contains p (s1 ++ p ++ s2) = true.
Proof.
  induction s1 as [|c s1 IH].
  - destruct (p ++ s2) eqn:E; cbn [append contains]; rewrite <- E;
      now rewrite prefix_append.
  - change (String c s1 ++ ?x) with (String c (s1 ++ x)).
    cbn [contains]. rewrite IH. apply orb_true_r.
Qed.

Lemma split_first c x1 y1 x2 y2 :
  no_char c x1 = true -> no_char c x2 = true ->
  x1 ++ String c y1 = x2 ++ String c y2 -> x1 = x2 /\ y1 = y2.
Proof.
  revert x2. induction x1 as [|a x1 IH]; intros [|b x2]; simpl; intros H1 H2 E.
  - injection E as ->. now split.
  - injection E as <- _. rewrite Ascii.eqb_refl in H2. discriminate.
  - injection E as -> _. rewrite Ascii.eqb_refl in H1. discriminate.
  - injection E as -> E. apply andb_prop in H1 as [_ H1], H2 as [_ H2].
    destruct (IH _ H1 H2 E) as [-> ->]. now split.
Qed.

Lemma split_last c x1 y1 x2 y2 :
  no_char c y1 = true -> no_char c y2 = true ->
  x1 ++ String c y1 = x2 ++ String c y2 -> x1 = x2 /\ y1 = y2.
Proof.
  intros H1 H2. revert x2.
  induction x1 as [|a x1 IH]; intros [|b x2]; simpl; intros E.
  - injection E as ->. now split.
  - injection E as _ E. rewrite E, no_char_append in H1. simpl in H1.
    rewrite Ascii.eqb_refl, andb_false_r in H1. discriminate.
  - injection E as _ E. rewrite <- E, no_char_append in H2. simpl in H2.
    rewrite Ascii.eqb_refl, andb_false_r in H2. discriminate.
  - injection E as -> E. destruct (IH _ E) as [-> ->]. now split.
Qed.

(* ================================================================== *)
(** ** Matching and [re.sub] *)
(* ================================================================== *)

Lemma strip_prefix_append p r : strip_prefix p (p ++ r) = Some r.
Proof.
  induction p as [|a p IH]; simpl; [reflexivity|].
  now rewrite Ascii.eqb_refl.
Qed.

Lemma strip_prefix_inv p s r : strip_prefix p s = Some r -> s = p ++ r.
Proof.
  revert s. induction p as [|a p IH]; intros s; simpl.
  - now intros [= ->].
  - destruct s as [|b s]; [discriminate|].
    destruct (Ascii.eqb a b) eqn:E; [|discriminate].
    apply Ascii.eqb_eq in E. subst b. intros Hs. f_equal. now apply IH.
Qed.

Lemma all_in_no_char cls c s :
  cls c = false -> all_in cls s = true -> no_char c s = true.
Proof.
  intros Hc. induction s as [|a s IH]; simpl; [reflexivity|].
  intros Ha. apply andb_prop in Ha as [Ha Hs].
  rewrite IH by assumption. rewrite andb_true_r.
  destruct (Ascii.eqb a c) eqn:E; [|reflexivity].
  apply Ascii.eqb_eq in E. congruence.
Qed.

(** What a successful [re_plus] consumed. *)
Lemma re_plus_inv cls k s r :
  re_plus cls k s = Some r ->
  exists u s', s = u ++ s' /\ u <> "" /\ all_in cls u = true /\ k s' = Some r.
Proof.
  revert r. induction s as [|c s IH]; intros r; simpl; [discriminate|].
  destruct (cls c) eqn:Hc; [|discriminate].
  destruct (re_plus cls k s) as [r'|] eqn:E.
  - intros [= ->]. destruct (IH r eq_refl) as (u & s' & -> & _ & Hu & Hk).
    exists (String c u), s'. simpl. rewrite Hc, Hu. repeat split; congruence.
  - intros Hk. exists (String c ""), s. simpl. rewrite Hc.
    repeat split; congruence.
Qed.

Lemma re_plus_stops cls k s : stops cls s = true -> re_plus cls k s = None.
Proof. destruct s as [|c s]; simpl; [reflexivity|]. now destruct (cls c). Qed.

(** A run of [cls] that stops is taken whole when the continuation accepts. *)
Lemma re_plus_run cls k u s r :
  u <> "" -> all_in cls u = true -> stops cls s = true -> k s = Some r ->
  re_plus cls k (u ++ s) = Some r.
Proof.
  intros Hne Hu Hs Hk. induction u as [|c u IH]; [congruence|].
  simpl in Hu. apply andb_prop in Hu as [Hc Hu].
  simpl. rewrite Hc. destruct u as [|c' u].
  - simpl. rewrite re_plus_stops by assumption. assumption.
  - rewrite IH by (assumption || discriminate). reflexivity.
Qed.

Lemma re_sub_from_skip re repl s1 s2 :
  re_sub_from re repl (String.length s1) (s1 ++ s2) = re_sub_from re repl 0 s2.
Proof. induction s1 as [|a s1 IH]; simpl; [reflexivity | assumption]. Qed.

(** A non-empty match at the head is replaced and the scan resumes after it. *)
Lemma re_sub_from_match re repl m rest :
  m <> "" -> re_match re (m ++ rest) = Some rest ->
  re_sub_from re repl 0 (m ++ rest) = repl ++ re_sub_from re repl 0 rest.
Proof.
  intros Hne Hm. destruct m as [|c m]; [congruence|].
  change (String c m ++ rest) with (String c (m ++ rest)) in *.
  cbn [re_sub_from]. rewrite Hm.
  replace (String.length (String c (m ++ rest)) - String.length rest)
    with (S (String.length m))
    by (cbn [String.length]; rewrite length_append; lia).
  f_equal. apply re_sub_from_skip.
Qed.

Lemma re_sub_from_nomatch re repl c s :
  re_match re (String c s) = None ->
  re_sub_from re repl 0 (String c s) = String c (re_sub_from re repl 0 s).
Proof. intros E. cbn [re_sub_from]. now rewrite E. Qed.

(** Every match of the block pattern starts with a header up to the
    opening brace. *)
Lemma block_re_match_inv s r :
  re_match block_re s = Some r ->
  exists label rest,
    label <> "" /\ all_in upper_us label = true
    /\ s = "--- " ++ label ++ " ---" ++ nl ++ "{" ++ rest.
Proof.
  unfold block_re. cbn [re_match].
  destruct (strip_prefix "--- " s) as [s1|] eqn:E1; [|discriminate].
  apply strip_prefix_inv in E1. intros Hp.
  apply re_plus_inv in Hp as (u & s2 & -> & Hne & Hu & Hk).
  destruct (strip_prefix (" ---" ++ nl ++ "{") s2) as [s3|] eqn:E3;
    [|discriminate].
  apply strip_prefix_inv in E3. subst s s2.
  exists u, s3. repeat split; assumption.
Qed.

Lemma block_re_match_brace s r :
  re_match block_re s = Some r -> no_char "{" s = false.
Proof.
  intros Hm. apply block_re_match_inv in Hm as (label & rest & _ & _ & ->).
  rewrite !no_char_append. simpl.
  now rewrite !andb_false_r.
Qed.

(** Text without an opening brace has no block to strip. *)
Lemma re_sub_block_re_brace_free s :
  no_char "{" s = true -> re_sub block_re "" s = s.
Proof.
  unfold re_sub. induction s as [|c s IH]; intros Hn; [reflexivity|].
  rewrite re_sub_from_nomatch.
  - f_equal. apply IH. simpl in Hn. now apply andb_prop in Hn as [_ Hn].
  - destruct (re_match block_re (String c s)) eqn:E; [|reflexivity].
    apply block_re_match_brace in E. congruence.
Qed.

Lemma re_search_here re s r : re_match re s = Some r -> re_search re s = true.
Proof. intros E. destruct s; simpl; now rewrite E. Qed.

Lemma re_search_append re s1 s2 :
  re_search re s2 = true -> re_search re (s1 ++ s2) = true.
Proof.
  intros Hs. induction s1 as [|c s1 IH]; [assumption|].
  simpl. rewrite IH. now destruct (re_match re (String c (s1 ++ s2))).
Qed.

Lemma re_search_tail re c s :
  re_search re (String c s) = false ->
  re_match re (String c s) = None /\ re_search re s = false.
Proof.
  cbn [re_search]. destruct (re_match re (String c s)); [discriminate|].
  now split.
Qed.

(* ================================================================== *)
(** ** The block pattern *)
(* ================================================================== *)

Lemma upper_us_no_brace label :
  all_in upper_us label = true -> no_char "{" label = true.
Proof. now apply all_in_no_char. Qed.

Lemma upper_us_no_space label :
  all_in upper_us label = true -> no_char " " label = true.
Proof. now apply all_in_no_char. Qed.

Lemma lower_us_no_brace key :
  all_in lower_us key = true -> no_char "{" key = true.
Proof. now apply all_in_no_char. Qed.

Lemma lower_us_not_close key :
  all_in lower_us key = true -> no_char "}" key = true.
Proof. now apply all_in_no_char. Qed.

Lemma header_no_brace label :
  all_in upper_us label = true -> no_char "{" (header label) = true.
Proof.
  intros Hl. unfold header.
  change ("--- " ++ label ++ " ---") with ("--- " ++ (label ++ " ---")).
  rewrite !no_char_append, (upper_us_no_brace _ Hl). reflexivity.
Qed.

Lemma footer_no_brace label :
  all_in upper_us label = true -> no_char "{" (footer label) = true.
Proof.
  intros Hl. unfold footer.
  change ("--- END " ++ label ++ " ---") with ("--- END " ++ (label ++ " ---")).
  rewrite !no_char_append, (upper_us_no_brace _ Hl). reflexivity.
Qed.

Lemma filled_block_no_brace label value :
  all_in upper_us label = true -> no_char "{" value = true ->
  no_char "{" (filled_block label value) = true.
Proof.
  intros Hl Hv. unfold filled_block.
  rewrite !no_char_append, header_no_brace, footer_no_brace, Hv by assumption.
  reflexivity.
Qed.

(** The whole shape of a match of the block pattern. *)
Lemma block_re_match_shape s r :
  re_match block_re s = Some r ->
  exists label key label',
    label <> "" /\ all_in upper_us label = true
    /\ key <> "" /\ all_in lower_us key = true
    /\ label' <> "" /\ all_in upper_us label' = true
    /\ s = header label ++ nl ++ placeholder key ++ nl ++ footer label' ++ r.
Proof.
  unfold block_re. cbn [re_match].
  destruct (strip_prefix "--- " s) as [s1|] eqn:E1; [|discriminate].
  apply strip_prefix_inv in E1. intros Hp.
  apply re_plus_inv in Hp as (u & s2 & -> & Hne & Hu & Hk).
  destruct (strip_prefix (" ---" ++ nl ++ "{") s2) as [s3|] eqn:E3;
    [|discriminate].
  apply strip_prefix_inv in E3.
  apply re_plus_inv in Hk as (key & s4 & -> & Hkne & Hkey & Hk).
  destruct (strip_prefix ("}" ++ nl ++ "--- END ") s4) as [s5|] eqn:E5;
    [|discriminate].
  apply strip_prefix_inv in E5.
  apply re_plus_inv in Hk as (u' & s6 & -> & Hne' & Hu' & Hk).
  destruct (strip_prefix " ---" s6) as [s7|] eqn:E7; [|discriminate].
  apply strip_prefix_inv in E7. injection Hk as ->.
  subst s s2 s4 s6.
  exists u, key, u'. repeat split; try assumption.
  unfold header, footer, placeholder.
  rewrite !append_assoc. reflexivity.
Qed.

Lemma placeholder_re_match key rest :
  key <> "" -> all_in lower_us key = true ->
  re_match placeholder_re (placeholder key ++ rest) = Some rest.
Proof.
  intros Hne Hk. unfold placeholder_re. cbn [re_match].
  rewrite placeholder_head.
  change (String "{" (key ++ "}") ++ rest) with ("{" ++ (key ++ "}") ++ rest).
  rewrite strip_prefix_append, append_assoc.
  apply re_plus_run; try assumption; reflexivity.
Qed.

Lemma block_re_match_placeholder s r :
  re_match block_re s = Some r -> re_search placeholder_re s = true.
Proof.
  intros Hm.
  apply block_re_match_shape in Hm
    as (label & key & label' & _ & _ & Hne & Hk & _ & _ & ->).
  rewrite <- (append_assoc (header label) nl).
  apply re_search_append.
  eapply re_search_here. now apply placeholder_re_match.
Qed.

(** Without a placeholder line there is no block to strip. *)
Lemma re_sub_block_re_no_placeholder s :
  re_search placeholder_re s = false -> re_sub block_re "" s = s.
Proof.
  unfold re_sub. induction s as [|c s IH]; intros Hn; [reflexivity|].
  apply re_search_tail in Hn as [Hh Ht].
  rewrite re_sub_from_nomatch.
  - f_equal. now apply IH.
  - destruct (re_match block_re (String c s)) eqn:E; [|reflexivity].
    apply block_re_match_placeholder in E. cbn [re_search] in E.
    rewrite Hh, Ht in E. discriminate.
Qed.

(** No match of the block pattern starts in brace-free text that runs
    into a block header: the header's own dashes cannot be borrowed. *)
Lemma block_re_not_before c text label rest :
  no_char "{" (String c text) = true -> all_in upper_us label = true ->
  re_match block_re (String c text ++ header label ++ nl ++ "{" ++ rest) = None.
Proof.
  intros Ht Hl.
  destruct (re_match block_re _) as [r|] eqn:E; [exfalso | reflexivity].
  apply block_re_match_inv in E as (u & rest' & _ & Hu & E).
  assert (E1 : (String c text ++ "--- " ++ label ++ " ---" ++ nl) ++ String "{" rest
               = ("--- " ++ u ++ " ---" ++ nl) ++ String "{" rest').
  { transitivity (String c text ++ header label ++ nl ++ "{" ++ rest).
    - unfold header. rewrite !append_assoc. reflexivity.
    - rewrite E, !append_assoc. reflexivity. }
  apply split_first in E1 as [E1 _].
  - assert (E2 : (String c text ++ "--- " ++ label) ++ String " " ("---" ++ nl)
                 = ("--- " ++ u) ++ String " " ("---" ++ nl)).
    { rewrite !append_assoc. exact E1. }
    apply split_last in E2 as [E2 _]; [|reflexivity|reflexivity].
    assert (E3 : (String c text ++ "---") ++ String " " label
                 = "---" ++ String " " u).
    { rewrite !append_assoc. exact E2. }
    apply split_last in E3 as [E3 _]; try now apply upper_us_no_space.
    apply (f_equal String.length) in E3. rewrite length_append in E3.
    simpl in E3. lia.
  - rewrite !no_char_append, Ht, (upper_us_no_brace _ Hl). reflexivity.
  - change ("--- " ++ u ++ " ---" ++ nl) with ("--- " ++ (u ++ " ---" ++ nl)).
    rewrite !no_char_append, (upper_us_no_brace _ Hu). reflexivity.
Qed.

Lemma re_sub_before_header text label rest :
  no_char "{" text = true -> all_in upper_us label = true ->
  re_sub_from block_re "" 0 (text ++ header label ++ nl ++ "{" ++ rest)
  = text ++ re_sub_from block_re "" 0 (header label ++ nl ++ "{" ++ rest).
Proof.
  intros Ht Hl. induction text as [|c text IH]; [reflexivity|].
  change (String c text ++ ?x) with (String c (text ++ x)).
  rewrite re_sub_from_nomatch.
  - f_equal. apply IH. simpl in Ht. now apply andb_prop in Ht as [_ Ht].
  - now apply block_re_not_before.
Qed.

(** A well-formed unfilled block is one match of the pattern. *)
Lemma block_re_match_block label key rest :
  label <> "" -> all_in upper_us label = true ->
  key <> "" -> all_in lower_us key = true ->
  re_match block_re (block label key ++ rest) = Some rest.
Proof.
  intros Hl Hlu Hk Hkl. unfold block, header, footer, placeholder, block_re.
  rewrite !append_assoc. cbn [re_match].
  rewrite strip_prefix_append.
  apply re_plus_run; try assumption; [reflexivity|].
  change (" ---" ++ nl ++ "{" ++ ?x) with ((" ---" ++ nl ++ "{") ++ x).
  rewrite strip_prefix_append.
  apply re_plus_run; try assumption; [reflexivity|].
  change ("}" ++ nl ++ "--- END " ++ ?x) with (("}" ++ nl ++ "--- END ") ++ x).
  rewrite strip_prefix_append.
  apply re_plus_run; try assumption; [reflexivity|].
  rewrite strip_prefix_append. reflexivity.
Qed.

Lemma block_nonempty label key : block label key <> "".
Proof. discriminate. Qed.

(* ================================================================== *)
(** ** Substitution of placeholders *)
(* ================================================================== *)

(** Replacing a placeholder that does not occur changes nothing. *)
Lemma replace_placeholder_absent key value s :
  contains (placeholder key) s = false ->
  replace (placeholder key) value s = s.
Proof.
  rewrite placeholder_head. unfold replace. apply replace_from_not_contained.
Qed.

Lemma substitute_items_absent context s :
  no_key_placeholder context s = true -> substitute_items context s = s.
Proof.
  unfold substitute_items, no_key_placeholder.
  induction context as [|[k v] context IH]; intros Hn; [reflexivity|].
  simpl in Hn. apply andb_prop in Hn as [Hk Hn].
  apply negb_true_iff in Hk. cbn [fold_left fst snd].
  rewrite replace_placeholder_absent by assumption. now apply IH.
Qed.

Lemma dict_get_forallb {V} (p : string * V -> bool) k d v :
  dict_get k d = Some v -> forallb p d = true -> p (k, v) = true.
Proof.
  induction d as [|[k' v'] d IH]; simpl; [discriminate|].
  intros Hg Hp. apply andb_prop in Hp as [Hp Hd].
  destruct (k' =? k) eqn:E.
  - apply String.eqb_eq in E. congruence.
  - now apply IH.
Qed.

(** Two different keys: neither closed name is a prefix of the other's. *)
Lemma prefix_closed_name k1 k2 rest :
  k1 <> k2 -> no_char "}" k1 = true -> no_char "}" k2 = true ->
  prefix (k1 ++ "}") (k2 ++ "}" ++ rest) = false.
Proof.
  revert k2. induction k1 as [|a k1 IH]; intros [|b k2] Hne H1 H2.
  - congruence.
  - cbn [no_char] in H2. apply andb_prop in H2 as [H2 _].
    change (prefix (String "}" "") (String b (k2 ++ "}" ++ rest)) = false).
    rewrite prefix_cons, Ascii.eqb_sym.
    apply negb_true_iff in H2. now rewrite H2.
  - cbn [no_char] in H1. apply andb_prop in H1 as [H1 _].
    change (prefix (String a (k1 ++ "}")) (String "}" rest) = false).
    rewrite prefix_cons. apply negb_true_iff in H1. now rewrite H1.
  - cbn [no_char] in H1, H2.
    apply andb_prop in H1 as [_ H1], H2 as [_ H2].
    change (prefix (String a (k1 ++ "}")) (String b (k2 ++ "}" ++ rest)) = false).
    rewrite prefix_cons. destruct (Ascii.eqb a b) eqn:E; [|reflexivity].
    apply Ascii.eqb_eq in E. subst b. apply IH; congruence.
Qed.

Lemma replace_placeholder_from key value s :
  replace (placeholder key) value s = replace_from (placeholder key) value 0 s.
Proof. now rewrite placeholder_head. Qed.

Lemma replace_from_placeholder_copy key value text rest :
  no_char "{" text = true ->
  replace_from (placeholder key) value 0 (text ++ rest)
  = text ++ replace_from (placeholder key) value 0 rest.
Proof. rewrite placeholder_head. apply replace_from_copy. Qed.

Lemma replace_from_placeholder_here key value rest :
  replace_from (placeholder key) value 0 (placeholder key ++ rest)
  = value ++ replace_from (placeholder key) value 0 rest.
Proof. rewrite placeholder_head. apply replace_from_here. Qed.

Lemma replace_from_placeholder_absent key value s :
  no_char "{" s = true -> replace_from (placeholder key) value 0 s = s.
Proof. rewrite placeholder_head. apply replace_from_absent. Qed.

(* ================================================================== *)
(** ** Text that holds no block *)
(* ================================================================== *)

(** [re.sub] copies text in which no match starts. *)
Lemma re_sub_block_free text rest :
  block_free text rest = true ->
  re_sub_from block_re "" 0 (text ++ rest)
  = text ++ re_sub_from block_re "" 0 rest.
Proof.
  induction text as [|c text IH]; [reflexivity|].
  cbn [block_free].
  destruct (re_match block_re (String c text ++ rest)) eqn:E; [discriminate|].
  intros Hb. change (String c text ++ rest) with (String c (text ++ rest)) in *.
  rewrite re_sub_from_nomatch by assumption.
  change (String c text ++ ?x) with (String c (text ++ x)).
  f_equal. now apply IH.
Qed.

Lemma re_sub_block_free_all text :
  block_free text "" = true -> re_sub block_re "" text = text.
Proof.
  intros Hb. unfold re_sub. rewrite <- (append_nil_r text) at 1.
  rewrite re_sub_block_free by assumption. simpl. apply append_nil_r.
Qed.

Lemma prefix_placeholder_distinct k1 k2 rest :
  k1 <> k2 -> no_char "}" k1 = true -> no_char "}" k2 = true ->
  prefix (placeholder k1) (placeholder k2 ++ rest) = false.
Proof.
  intros Hne H1 H2. rewrite !placeholder_head.
  change (String "{" (k2 ++ "}") ++ rest) with (String "{" ((k2 ++ "}") ++ rest)).
  rewrite prefix_cons, append_assoc. now apply prefix_closed_name.
Qed.

(** Substituting for a key without a closing brace passes over the
    unfilled placeholder of another key. *)
Lemma replace_from_passes_placeholder k1 k2 value text rest :
  k1 <> k2 -> no_char "}" k1 = true -> all_in lower_us k2 = true ->
  no_char "{" text = true ->
  replace_from (placeholder k1) value 0 (text ++ placeholder k2 ++ rest)
  = text ++ placeholder k2 ++ replace_from (placeholder k1) value 0 rest.
Proof.
  intros Hne H1 H2 Ht.
  rewrite replace_from_placeholder_copy by assumption. f_equal.
  pose proof (@prefix_placeholder_distinct k1 k2 rest Hne H1
                (lower_us_not_close _ H2)) as Hp.
  rewrite (placeholder_head k2) in *.
  change (String "{" (k2 ++ "}") ++ ?x) with (String "{" ((k2 ++ "}") ++ x)) in *.
  rewrite replace_from_step by assumption. f_equal.
  apply replace_from_placeholder_copy.
  rewrite no_char_append, (lower_us_no_brace _ H2). reflexivity.
Qed.

(* ================================================================== *)
(** ** The scan for the init-container name *)
(* ================================================================== *)

Lemma list_index_first x before rest :
  forallb (is_not x) before = true ->
  list_index x (before ++ x :: rest) = Some (List.length before).
Proof.
  induction before as [|y before IH]; cbn [forallb app list_index List.length].
  - now rewrite String.eqb_refl.
  - intros Hb. apply andb_prop in Hb as [Hy Hb]. unfold is_not in Hy.
    apply negb_true_iff in Hy. rewrite Hy. now rewrite IH.
Qed.


Lemma skipn_past {A} (before : list A) x rest :
  skipn (List.length before + 1) (before ++ x :: rest) = rest.
Proof. induction before as [|y before IH]; [reflexivity | exact IH]. Qed.

Lemma first_init_container_skips between rest :
  forallb (fun l => negb (ends_with_colon l)) between = true ->
  first_init_container (between ++ rest) = first_init_container rest.
Proof.
  induction between as [|l between IH]; [reflexivity|].
  cbn [forallb app first_init_container]. intros Hb.
  apply andb_prop in Hb as [Hl Hb]. unfold ends_with_colon in Hl.
  apply negb_true_iff in Hl. rewrite Hl. now apply IH.
Qed.


(** The scan of [perceive_context] returns the name that the description
    names. *)
Lemma find_init_container_name_sound description name :
  names_init_container description name ->
  find_init_container_name description = name.
Proof.
  intros (before & between & line & after & Hlines & Hb & Hbt & Hl & -> & _).
  unfold find_init_container_name. rewrite Hlines.
  rewrite list_index_first, skipn_past by assumption.
  rewrite first_init_container_skips by assumption.
  cbn [first_init_container]. unfold ends_with_colon in Hl. now rewrite Hl.
Qed.



(* ================================================================== *)
(** ** Polling *)
(* ================================================================== *)

Section PollingFacts.

Context {W : Type} `{World W}.

Lemma listing_completed (st : state W) pods_output :
  listing st = Some pods_output ->
  exists p, outcome_of "kubectl get pods -o name" st = Completed p
            /\ pods_output = strip (stdout p).
Proof.
  unfold listing.
  destruct (outcome_of "kubectl get pods -o name" st) as [p | e];
    [|discriminate].
  intros [= <-]. now exists p.
Qed.

(** A listing with a match ends the loop. *)
Lemma poll_pods_hit pattern n (st : state W) name :
  seen pattern st = Some name ->
  poll_pods pattern (S n) st
  = (Ok (Some name), ran "kubectl get pods -o name" false st).
Proof.
  unfold seen. destruct (listing st) as [out|] eqn:El; [|discriminate].
  apply listing_completed in El as (p & Ep & ->). intros Hm.
  cbn [poll_pods]. rewrite (bind_ok _ _ _ (run_command_tolerant _ _ Ep)).
  now rewrite Hm.
Qed.

(** A listing without a match leads to the pause and the next attempt. *)
Lemma poll_pods_miss pattern n (st : state W) :
  no_match pattern st = true ->
  poll_pods pattern (S n) st = poll_pods pattern n (next_poll st).
Proof.
  unfold no_match. destruct (listing st) as [out|] eqn:El; [|discriminate].
  apply listing_completed in El as (p & Ep & ->).
  destruct (first_matching pattern (split LF (strip (stdout p)))) eqn:Em;
    [discriminate|].
  intros _. cbn [poll_pods].
  rewrite (bind_ok _ _ _ (run_command_tolerant _ _ Ep)), Em.
  now rewrite (bind_ok _ _ _ (sleep_run 2 _)).
Qed.

Lemma iter_shift {A} (f : A -> A) i x : Nat.iter i f (f x) = Nat.iter (S i) f x.
Proof. induction i as [|i IH]; simpl; [reflexivity | now rewrite IH]. Qed.

(** The first listing with a match ends the loop. *)
Lemma poll_pods_found pattern name k :
  forall n (st : state W),
    k < n ->
    (forall i, i < k -> no_match pattern (Nat.iter i next_poll st) = true) ->
    seen pattern (Nat.iter k next_poll st) = Some name ->
    poll_pods pattern n st
    = (Ok (Some name),
       ran "kubectl get pods -o name" false (Nat.iter k next_poll st)).
Proof.
  induction k as [|k IH]; intros [|n] st Hk Hmiss Hhit; try lia.
  - now apply poll_pods_hit.
  - rewrite poll_pods_miss by (apply (Hmiss 0); lia).
    rewrite <- iter_shift. apply IH; [lia | |].
    + intros i Hi. rewrite iter_shift. apply Hmiss. lia.
    + now rewrite iter_shift.
Qed.

(** Without a match the loop gives up after [n] listings. *)
Lemma poll_pods_exhausted pattern n :
  forall st : state W,
    (forall i, i < n -> no_match pattern (Nat.iter i next_poll st) = true) ->
    poll_pods pattern n st = (Ok None, Nat.iter n next_poll st).
Proof.
  induction n as [|n IH]; intros st Hmiss; [reflexivity|].
  rewrite poll_pods_miss by (apply (Hmiss 0); lia).
  rewrite <- iter_shift. apply IH.
  intros i Hi. rewrite iter_shift. apply Hmiss. lia.
Qed.

Lemma miss_seq (pattern : string) (st : state W) (n : nat) :
  forallb (miss pattern st) (seq 0 n) = true ->
  forall i, i < n -> no_match pattern (Nat.iter i next_poll (slept 5 st)) = true.
Proof.
  intros Hall i Hi. rewrite forallb_forall in Hall.
  apply (Hall i). apply in_seq. lia.
Qed.

End PollingFacts.

(* ================================================================== *)
(** ** Runs whose steps go well *)
(* ================================================================== *)

Section RunFacts.

Context {W : Type} `{World W}.

Lemma grows_ret {A} (a : A) : grows (ret a : M W A).
Proof. intros st. exists []. simpl. now rewrite app_nil_r. Qed.

Lemma grows_raise {A} e : grows (raise e : M W A).
Proof. intros st. exists []. simpl. now rewrite app_nil_r. Qed.

Lemma grows_bind {A B} (m : M W A) (f : A -> M W B) :
  grows m -> (forall a, grows (f a)) -> grows (bind m f).
Proof.
  intros Hm Hf st. destruct (Hm st) as [t1 E1]. unfold bind.
  destruct (m st) as [[a | e] st1]; simpl in E1.
  - destruct (Hf a st1) as [t2 E2]. exists (t1 ++ t2)%list.
    now rewrite E2, E1, app_assoc.
  - now exists t1.
Qed.

Lemma grows_try_except {A} (m : M W A) (h : exn -> M W A) :
  grows m -> (forall e, grows (h e)) -> grows (try_except m h).
Proof.
  intros Hm Hh st. destruct (Hm st) as [t1 E1]. unfold try_except.
  destruct (m st) as [[a | e] st1]; simpl in E1.
  - now exists t1.
  - destruct (Hh e st1) as [t2 E2]. exists (t1 ++ t2)%list.
    now rewrite E2, E1, app_assoc.
Qed.

Lemma grows_interact {A} (f : W -> A * W) (log : A -> event) :
  grows (interact f log).
Proof.
  intros st. unfold interact. destruct (f (world st)) as [a w'].
  now exists [log a].
Qed.

Lemma grows_sleep seconds : grows (sleep seconds : M W unit).
Proof. intros st. now exists [Slept seconds]. Qed.

(** Structural steps of a proof that a computation only adds to the trace. *)
Ltac grow_step :=
  first
    [ apply grows_ret
    | apply grows_raise
    | apply grows_sleep
    | apply grows_interact
    | apply grows_bind; [|intros ?]
    | apply grows_try_except; [|intros ?]
    | match goal with
      | |- grows (match ?x with _ => _ end) => destruct x
      | |- grows (if ?c then _ else _) => destruct c
      end ].

Ltac grow := repeat grow_step.

Lemma grows_run_command command check : grows (run_command command check).
Proof. unfold run_command, subprocess_run. grow. Qed.

Lemma grows_call_llm prompt max_tokens : grows (call_llm prompt max_tokens).
Proof.
  unfold call_llm, raise_for_status, response_json, getitem_str, getitem_0,
    get_method.
  grow.
Qed.

Lemma grows_input : grows (input : M W string).
Proof. unfold input. grow. Qed.

Lemma grows_perceive_context pod_name classification :
  grows (perceive_context pod_name classification).
Proof.
  unfold perceive_context.
  repeat first [apply grows_run_command | grow_step].
Qed.

Lemma grows_poll_pods pattern attempts : grows (poll_pods pattern attempts).
Proof.
  induction attempts as [|n IH]; cbn [poll_pods];
    repeat first [apply grows_run_command | assumption | grow_step].
Qed.

Lemma grows_cleanup node_for_taint scenario_info :
  grows (cleanup node_for_taint scenario_info).
Proof.
  unfold cleanup. repeat first [apply grows_run_command | grow_step].
Qed.

(** Splitting what a run added when all of it went well. *)
Lemma clean_app (t1 t2 : list event) :
  forallb step_ok (t1 ++ t2) = true ->
  forallb step_ok t1 = true /\ forallb step_ok t2 = true.
Proof. rewrite forallb_app. apply andb_prop. Qed.

Lemma returns_when_clean_ret {A} (P : A -> Prop) (a : A) :
  P a -> returns_when_clean P (ret a : M W A).
Proof.
  intros Pa st. exists []. split; [simpl; now rewrite app_nil_r|].
  intros _. now exists a.
Qed.

Lemma returns_when_clean_bind {A B} (P : A -> Prop) (Q : B -> Prop)
  (m : M W A) (f : A -> M W B) :
  returns_when_clean P m ->
  (forall a, P a -> returns_when_clean Q (f a)) ->
  (forall a, grows (f a)) ->
  returns_when_clean Q (bind m f).
Proof.
  intros Hm Hf Hg st. destruct (Hm st) as (t1 & E1 & H1). unfold bind.
  destruct (m st) as [[a | e] st1]; simpl in E1, H1.
  - destruct (Hg a st1) as [t2 E2]. exists (t1 ++ t2)%list. split.
    + now rewrite E2, E1, app_assoc.
    + intros Hc. apply clean_app in Hc as [Hc1 Hc2].
      destruct (H1 Hc1) as (a' & [= <-] & Pa).
      destruct (Hf a Pa st1) as (t2' & E2' & H2).
      rewrite E2 in E2'. apply app_inv_head in E2'. subst t2'.
      now apply H2.
  - exists t1. split; [assumption|].
    intros Hc. destruct (H1 Hc) as (a' & [=] & _).
Qed.

Lemma returns_when_clean_sleep seconds :
  returns_when_clean (fun _ => True) (sleep seconds : M W unit).
Proof.
  intros st. exists [Slept seconds]. split; [reflexivity|].
  intros _. now exists tt.
Qed.

(** [run_command] returns when the output of its command is captured and,
    in strict mode, the exit status is 0. *)
Lemma returns_when_clean_run_command command check :
  returns_when_clean (fun _ => True) (run_command command check).
Proof.
  intros st. exists [Ran command check (outcome_of command st)].
  destruct (outcome_of command st) as [p | e] eqn:E.
  - destruct check.
    + destruct (Z.eq_dec (returncode p) 0) as [Hz | Hnz].
      * rewrite (run_command_strict_ok _ _ E Hz). unfold ran. rewrite E.
        split; [reflexivity|]. intros _. now eexists.
      * rewrite (run_command_strict_fail _ _ E Hnz). unfold ran. rewrite E.
        split; [reflexivity|]. simpl.
        apply Z.eqb_neq in Hnz. rewrite Hnz. discriminate.
    + rewrite (run_command_tolerant _ _ E). unfold ran. rewrite E.
      split; [reflexivity|]. intros _. now eexists.
  - rewrite (run_command_failed _ check _ E). unfold ran. rewrite E.
    split; [reflexivity|]. simpl. discriminate.
Qed.

(** The replies on which [call_llm] returns text. *)
Lemma call_llm_text prompt max_tokens (st : state W) :
  yields_text (fst (http_post prompt max_tokens (world st))) = true ->
  exists text,
    call_llm prompt max_tokens st
    = (Ok (JStr text), posted prompt max_tokens st).
Proof.
  unfold call_llm, posted.
  cbv beta iota delta [try_except bind interact ret raise raise_for_status
                       response_json getitem_str getitem_0 get_method].
  destruct (http_post prompt max_tokens (world st)) as [[msg | r] w'];
    cbn [fst snd yields_text].
  - intros _. eexists. reflexivity.
  - destruct ((400 <=? status_code r) && (status_code r <? 500))%Z;
      [intros _; eexists; reflexivity|].
    destruct ((500 <=? status_code r) && (status_code r <? 600))%Z;
      [intros _; eexists; reflexivity|].
    destruct (content r) as [err | j]; [intros _; eexists; reflexivity|].
    unfold well_shaped, dict_get_default.
    destruct j as [| | | | |d]; try discriminate.
    destruct (dict_get "choices" d) as [[| | | |[|[| | | | |choice] l]|]|];
      try discriminate.
    destruct (dict_get "message" choice) as [[| | | | |message]|];
      try discriminate.
    + destruct (dict_get "content" message) as [[| | |text| |]|];
        try discriminate; intros _; eexists; reflexivity.
    + intros _. eexists. reflexivity.
Qed.

(** Whatever the reply, [call_llm] posts once and does nothing else. *)
Lemma call_llm_trace prompt max_tokens (st : state W) :
  trace (snd (call_llm prompt max_tokens st))
  = (trace st
     ++ [Posted prompt (fst (http_post prompt max_tokens (world st)))])%list.
Proof.
  unfold call_llm.
  cbv beta iota delta [try_except bind interact ret raise raise_for_status
                       response_json getitem_str getitem_0 get_method].
  destruct (http_post prompt max_tokens (world st)) as [[msg | r] w'];
    cbn [fst]; [reflexivity|].
  destruct ((400 <=? status_code r) && (status_code r <? 500))%Z;
    [reflexivity|].
  destruct ((500 <=? status_code r) && (status_code r <? 600))%Z;
    [reflexivity|].
  destruct (content r) as [err | j]; [reflexivity|].
  destruct j as [| | | | |d]; try reflexivity.
  destruct (dict_get "choices" d) as [choices|]; [|reflexivity].
  destruct choices as [| | |[|c s]|[|choice l]|d']; try reflexivity.
  destruct choice as [| | | | |choice]; try reflexivity.
  destruct (dict_get_default "message" (JObj []) choice); reflexivity.
Qed.

Lemma returns_when_clean_call_llm prompt max_tokens :
  returns_when_clean is_text (call_llm prompt max_tokens).
Proof.
  intros st.
  exists [Posted prompt (fst (http_post prompt max_tokens (world st)))].
  split; [apply call_llm_trace|].
  simpl. rewrite andb_true_r. intros Hy.
  destruct (call_llm_text prompt max_tokens st Hy) as [text E].
  exists (JStr text). now rewrite E.
Qed.

Lemma returns_when_clean_open_read path :
  returns_when_clean (fun _ => True) (open_read path).
Proof.
  intros st. unfold open_read, bind, interact.
  destruct (read_file path (world st)) as [[text |] w'].
  - exists [Opened path (Some text)]. split; [reflexivity|].
    intros _. now eexists.
  - exists [Opened path None]. split; [reflexivity|]. discriminate.
Qed.

Lemma returns_when_clean_perceive_context pod_name classification :
  returns_when_clean (fun _ => True)
                     (perceive_context pod_name classification).
Proof.
  unfold perceive_context.
  apply returns_when_clean_bind with (P := fun _ : string => True);
    [apply returns_when_clean_run_command | intros pod_description _
    | intros pod_description].
  - repeat match goal with
           | |- returns_when_clean _ (if ?c then _ else _) => destruct c
           end;
      try (now apply returns_when_clean_ret);
      (apply returns_when_clean_bind with (P := fun _ : string => True);
       [ apply returns_when_clean_run_command
       | intros out _; now apply returns_when_clean_ret
       | intros out; apply grows_ret ]).
  - repeat first [apply grows_run_command | grow_step].
Qed.

Lemma returns_when_clean_poll_pods pattern attempts :
  returns_when_clean (fun _ => True) (poll_pods pattern attempts).
Proof.
  induction attempts as [|n IH]; cbn [poll_pods].
  - now apply returns_when_clean_ret.
  - apply returns_when_clean_bind with (P := fun _ : string => True);
      [apply returns_when_clean_run_command | intros pods_output _
      | intros pods_output].
    + destruct (first_matching pattern (split LF pods_output)).
      * now apply returns_when_clean_ret.
      * apply returns_when_clean_bind with (P := fun _ : unit => True);
          [apply returns_when_clean_sleep | intros _ _; exact IH
          | intros _; apply grows_poll_pods].
    + repeat first [apply grows_poll_pods | grow_step].
Qed.

Lemma returns_when_clean_get_pod_name pattern :
  returns_when_clean (fun _ => True) (get_pod_name pattern).
Proof.
  unfold get_pod_name.
  apply returns_when_clean_bind with (P := fun _ : unit => True);
    [apply returns_when_clean_sleep
    | intros _ _; apply returns_when_clean_poll_pods
    | intros _; apply grows_poll_pods].
Qed.

(** The steps taken for an identified pod. *)
Lemma returns_when_clean_diagnose_pod scenario_info pod_name :
  returns_when_clean (fun _ => True) (diagnose_pod scenario_info pod_name).
Proof.
  unfold diagnose_pod, reason_llm.
  apply returns_when_clean_bind with (P := fun _ : string => True);
    [apply returns_when_clean_run_command | intros get_pod_output _ | ].
  - apply returns_when_clean_bind with (P := is_text);
      [apply returns_when_clean_call_llm | intros answer Htext | ].
    + destruct answer; try contradiction. cbn [strip_method].
      apply returns_when_clean_bind with (P := fun _ : string => True);
        [now apply returns_when_clean_ret | intros classification _ | ].
      * apply returns_when_clean_bind with (P := fun _ : dict string => True);
          [apply returns_when_clean_perceive_context
          | intros full_context _ | ].
        -- apply returns_when_clean_bind with (P := is_text);
             [apply returns_when_clean_call_llm
             | intros diagnosis_result Hresult | ].
           ++ destruct diagnosis_result; try contradiction.
              unfold act_display_results, display_text.
              apply returns_when_clean_bind with (P := fun _ : unit => True);
                [now apply returns_when_clean_ret
                | intros _ _; now apply returns_when_clean_ret
                | intros _; apply grows_ret].
           ++ intros diagnosis_result.
              unfold act_display_results, display_text. grow.
        -- intros full_context.
           unfold act_display_results, display_text.
           repeat first [apply grows_call_llm | grow_step].
      * intros classification.
        unfold act_display_results, display_text.
        repeat first [apply grows_call_llm | apply grows_perceive_context
                     | grow_step].
    + intros answer.
      unfold act_display_results, display_text, strip_method.
      repeat first [apply grows_call_llm | apply grows_perceive_context
                   | grow_step].
  - intros get_pod_output.
    unfold act_display_results, display_text, strip_method.
    repeat first [apply grows_call_llm | apply grows_perceive_context
                 | grow_step].
Qed.

Lemma trace_ran command check (st : state W) :
  trace (ran command check st)
  = (trace st ++ [Ran command check (outcome_of command st)])%list.
Proof. reflexivity. Qed.

(** The cleanup lines issue their commands in order. *)
Lemma cleanup_cleans_up node_for_taint scenario_info :
  cleans_up_when_clean node_for_taint scenario_info
                       (cleanup node_for_taint scenario_info).
Proof.
  intros st. destruct (grows_cleanup node_for_taint scenario_info st)
    as [added E].
  exists added. split; [assumption|]. intros Hclean.
  revert E. unfold cleanup, cleanup_events.
  destruct (outcome_of (delete_command scenario_info) st) as [p | e] eqn:Ed.
  - rewrite (bind_ok _ _ _ (run_command_tolerant _ _ Ed)).
    destruct (post_run_command scenario_info) as [template |].
    + set (st1 := ran (delete_command scenario_info) false st).
      destruct (outcome_of (format_node_name template node_for_taint) st1)
        as [p' | e'] eqn:Ep.
      * rewrite (bind_ok _ _ _ (run_command_tolerant _ _ Ep)).
        unfold ret. cbn [snd]. rewrite trace_ran, Ep.
        subst st1. rewrite trace_ran, Ed, <- app_assoc. intros E.
        apply app_inv_head in E. subst added.
        now exists [], (Completed p), (Completed p'), [].
      * rewrite (bind_raise _ _ _ (run_command_failed _ false _ Ep)).
        cbn [snd]. rewrite trace_ran, Ep.
        subst st1. rewrite trace_ran, Ed, <- app_assoc. intros E.
        apply app_inv_head in E. subst added. discriminate Hclean.
    + unfold ret. cbn [snd]. rewrite trace_ran, Ed. intros E.
      apply app_inv_head in E. subst added.
      now exists [], (Completed p), (Completed p), [].
  - rewrite (bind_raise _ _ _ (run_command_failed _ false _ Ed)).
    cbn [snd]. rewrite trace_ran, Ed. intros E.
    apply app_inv_head in E. subst added. discriminate Hclean.
Qed.

(** When what comes first returns, the cleanup is in what follows. *)
Lemma cleans_up_after {A B} node_for_taint scenario_info (P : A -> Prop)
  (m : M W A) (f : A -> M W B) :
  returns_when_clean P m ->
  (forall a, cleans_up_when_clean node_for_taint scenario_info (f a)) ->
  cleans_up_when_clean node_for_taint scenario_info (bind m f).
Proof.
  intros Hm Hf st. destruct (Hm st) as (t1 & E1 & H1). unfold bind.
  destruct (m st) as [[a | e] st1]; simpl in E1, H1.
  - destruct (Hf a st1) as (t2 & E2 & H2). exists (t1 ++ t2)%list. split.
    + now rewrite E2, E1, app_assoc.
    + intros Hc. apply clean_app in Hc as [_ Hc2].
      destruct (H2 Hc2) as (before & deleted & torn_down & after & ->).
      exists (t1 ++ before)%list, deleted, torn_down, after.
      now rewrite <- app_assoc.
  - exists t1. split; [assumption|].
    intros Hc. destruct (H1 Hc) as (a' & [=] & _).
Qed.

(** What follows the cleanup only adds to the trace. *)
Lemma cleans_up_then {A B} node_for_taint scenario_info
  (m : M W A) (f : A -> M W B) :
  cleans_up_when_clean node_for_taint scenario_info m ->
  (forall a, grows (f a)) ->
  cleans_up_when_clean node_for_taint scenario_info (bind m f).
Proof.
  intros Hm Hf st. destruct (Hm st) as (t1 & E1 & H1). unfold bind.
  destruct (m st) as [[a | e] st1]; simpl in E1.
  - destruct (Hf a st1) as [t2 E2]. exists (t1 ++ t2)%list. split.
    + now rewrite E2, E1, app_assoc.
    + intros Hc. apply clean_app in Hc as [Hc1 _].
      destruct (H1 Hc1) as (before & deleted & torn_down & after & ->).
      exists before, deleted, torn_down, (after ++ t2)%list.
      now rewrite <- !app_assoc.
  - exists t1. split; assumption.
Qed.

(** One iteration of the loop of [main], for a scenario that is run. *)
Lemma run_scenario_cleans_up node_for_taint scenario_id scenario_info :
  skipped node_for_taint scenario_id = false ->
  cleans_up_when_clean node_for_taint scenario_info
    (run_scenario node_for_taint scenario_id scenario_info).
Proof.
  intros Hskip. unfold run_scenario. rewrite Hskip.
  apply cleans_up_after with (P := fun _ => True).
  { destruct (pre_run_command scenario_info) as [template |].
    - apply returns_when_clean_bind with (P := fun _ : string => True);
        [apply returns_when_clean_run_command
        | intros _ _; now apply returns_when_clean_ret
        | intros _; apply grows_ret].
    - now apply returns_when_clean_ret. }
  intros _.
  apply cleans_up_after with (P := fun _ => True);
    [apply returns_when_clean_open_read|].
  intros manifest_content.
  apply cleans_up_after with (P := fun _ => True);
    [apply returns_when_clean_run_command|].
  intros _.
  apply cleans_up_after with (P := fun _ => True);
    [apply returns_when_clean_sleep|].
  intros _.
  apply cleans_up_after with (P := fun _ => True);
    [apply returns_when_clean_get_pod_name|].
  intros pod_name.
  apply cleans_up_after with (P := fun _ => True).
  { destruct pod_name as [[|c rest]|]; try now apply returns_when_clean_ret.
    apply returns_when_clean_diagnose_pod. }
  intros _. apply cleans_up_then; [apply cleanup_cleans_up|].
  intros _. repeat first [apply grows_input | grow_step].
Qed.

End RunFacts.

(* ================================================================== *)
(** ** A placeholder that stands once *)
(* ================================================================== *)

Lemma replace_from_starts_nowhere a old new text rest :
  starts_nowhere (String a old) text rest = true ->
  replace_from (String a old) new 0 (text ++ rest)
  = text ++ replace_from (String a old) new 0 rest.
Proof.
  induction text as [|c text IH]; [reflexivity|].
  cbn [starts_nowhere]. intros Hs. apply andb_prop in Hs as [Hp Hs].
  apply negb_true_iff in Hp.
  change (String c text ++ rest) with (String c (text ++ rest)) in *.
  rewrite replace_from_step by assumption.
  change (String c text ++ ?x) with (String c (text ++ x)).
  f_equal. now apply IH.
Qed.

(** The one occurrence is replaced and the text around it is kept. *)
Lemma replace_placeholder_once key value above below :
  starts_nowhere (placeholder key) above (placeholder key ++ below) = true ->
  starts_nowhere (placeholder key) below "" = true ->
  replace (placeholder key) value (above ++ placeholder key ++ below)
  = above ++ value ++ below.
Proof.
  rewrite placeholder_head. intros Ha Hb. unfold replace.
  rewrite replace_from_starts_nowhere by assumption. f_equal.
  rewrite replace_from_here. f_equal.
  rewrite <- (append_nil_r below) at 1.
  rewrite replace_from_starts_nowhere by assumption.
  simpl. apply append_nil_r.
Qed.

(** The unfilled block is cut out of a text that holds no other match. *)
Lemma re_sub_cuts_block before label key after :
  label <> "" -> all_in upper_us label = true ->
  key <> "" -> all_in lower_us key = true ->
  block_free before (block label key ++ after) = true ->
  block_free after "" = true ->
  re_sub block_re "" (before ++ block label key ++ after) = before ++ after.
Proof.
  intros Hl Hlu Hk Hkl Hb Ha. unfold re_sub.
  rewrite re_sub_block_free by assumption. f_equal.
  rewrite re_sub_from_match.
  - simpl. now apply re_sub_block_free_all.
  - apply block_nonempty.
  - now apply block_re_match_block.
Qed.

Lemma contains_in_filled_block label value before after :
  contains value (before ++ filled_block label value ++ after) = true.
Proof.
  unfold filled_block.
  replace (before ++ (header label ++ nl ++ value ++ nl ++ footer label)
           ++ after)
    with ((before ++ header label ++ nl) ++ value
          ++ (nl ++ footer label ++ after))
    by now rewrite !append_assoc.
  apply contains_append.
Qed.

(* ================================================================== *)
(** ** The claims *)
(* ================================================================== *)




(** The scan for the init-container name on three descriptions: with the
    section header and an indented name line it finds the name;
    without the header, or when that line holds colons only, the name is
    empty and no logs are fetched. *)
Remark find_init_container_name_examples :
  find_init_container_name "Name: web
Init Containers:
  init-db:
    Image: busybox
Containers:
  app:" = "init-db"
  /\ find_init_container_name "Name: web
Containers:
  app:" = ""
  /\ find_init_container_name "Init Containers:
  :" = "".
Proof. repeat split; vm_compute; reflexivity. Qed.

(** C2.  The claim has the tolerant mode return the standard error text
    of a command that exits non-zero.  [subprocess.run] raises
    [CalledProcessError] only when [check] is set, so with [check=False]
    the [except] branch that returns [e.stderr.strip()] is never entered:
    on a command that exits 1 with output on both streams, [run_command]
    returns the trimmed standard output, not the error text. *)
Theorem run_command_tolerant_failure_returns_stdout :
  let result :=
    fst (@run_command nat (scripted failing_describe_script)
           "kubectl describe nodes" false start) in
  result = Ok "partial listing"
  /\ result <> Ok "Error from server (NotFound)".
Proof. cbv zeta. split; [reflexivity | discriminate]. Qed.

(** C3, amended.  Take a template made of a block for key [A] and a block
    for key [B], in either order, between texts [pre], [mid] and [post],
    and a context that holds [A] only.  [B]'s block is one the pattern
    describes (its label a non-empty word over [A-Z_], its key a
    non-empty word over [a-z_]), [A] is not the sentinel key, [A]'s
    placeholder stands in the template once (no other occurrence starts
    in the text [above] it or [below] it), and with [A]'s value in its
    place no match of the pattern starts in the text [before] [B]'s block
    or [after] it.  Then the assembled prompt is the template with [A]'s
    placeholder replaced by its value and [B]'s whole block (header,
    placeholder line and footer) cut out: it contains [A]'s value, and a
    marker can occur in it only where the text around the block has it. *)
Theorem unfilled_block_removed (A B LA LB value pre mid post : string) :
  A <> "kubectl_get_pod_output" ->
  B <> "" -> all_in lower_us B = true ->
  LB <> "" -> all_in upper_us LB = true ->
  forall template above below before after,
    (template = pre ++ block LA A ++ mid ++ block LB B ++ post
     /\ above = pre ++ header LA ++ nl
     /\ below = nl ++ footer LA ++ mid ++ block LB B ++ post
     /\ before = pre ++ filled_block LA value ++ mid
     /\ after = post)
    \/ (template = pre ++ block LB B ++ mid ++ block LA A ++ post
        /\ above = pre ++ block LB B ++ mid ++ header LA ++ nl
        /\ below = nl ++ footer LA ++ post
        /\ before = pre
        /\ after = mid ++ filled_block LA value ++ post) ->
    starts_nowhere (placeholder A) above (placeholder A ++ below) = true ->
    starts_nowhere (placeholder A) below "" = true ->
    block_free before (block LB B ++ after) = true ->
    block_free after "" = true ->
    let output := assemble_prompt [(A, value)] template in
    output = before ++ after
    /\ contains value output = true
    /\ (forall marker,
          contains marker (before ++ after) = false ->
          contains marker output = false).
Proof.
  intros HA HBn HBl HLBn HLB template above below before after Horder
         Habove Hbelow Hbefore Hafter output.
  assert (Hfilled : substitute_items [(A, value)] template
                    = before ++ block LB B ++ after).
  { unfold substitute_items. cbn [fold_left fst snd].
    replace template with (above ++ placeholder A ++ below).
    - rewrite replace_placeholder_once by assumption.
      destruct Horder as [(_ & -> & -> & -> & ->) | (_ & -> & -> & -> & ->)];
        unfold filled_block; now rewrite !append_assoc.
    - destruct Horder as [(-> & -> & -> & _) | (-> & -> & -> & _)];
        unfold block; now rewrite !append_assoc. }
  assert (Hout : output = before ++ after).
  { unfold output, assemble_prompt. cbn [dict_get].
    apply String.eqb_neq in HA. rewrite HA, Hfilled.
    now apply re_sub_cuts_block. }
  rewrite Hout. split; [reflexivity|]. split; [|auto].
  destruct Horder as [(_ & _ & _ & -> & ->) | (_ & _ & _ & -> & ->)].
  - replace ((pre ++ filled_block LA value ++ mid) ++ post)
      with (pre ++ filled_block LA value ++ (mid ++ post))
      by now rewrite !append_assoc.
    apply contains_in_filled_block.
  - replace (pre ++ mid ++ filled_block LA value ++ post)
      with ((pre ++ mid) ++ filled_block LA value ++ post)
      by now rewrite !append_assoc.
    apply contains_in_filled_block.
Qed.

(** The amended C3 on two blocks of the diagnosis template and a value
    with braces in it, and on a block whose label has a space and whose
    key has a digit, after the block to remove. *)
Lemma unfilled_block_removed_witness :
  (let value :=
     "Warning  FailedScheduling  3 node(s) had untolerated taint {special-workload: true}." in
   assemble_prompt [("pod_description", value)]
     (("### CONTEXT START ###" ++ nl)
      ++ block "POD_DESCRIPTION" "pod_description"
      ++ (nl ++ nl) ++ block "NODE_DESCRIPTIONS" "node_descriptions"
      ++ (nl ++ "### CONTEXT END ###"))
   = (("### CONTEXT START ###" ++ nl)
      ++ filled_block "POD_DESCRIPTION" value ++ (nl ++ nl))
     ++ (nl ++ "### CONTEXT END ###"))
  /\ assemble_prompt [("a2", "exit {code: 1}")]
       (("Logs:" ++ nl) ++ block "LOGS" "logs" ++ nl
        ++ block "POD DATA" "a2" ++ nl)
     = ("Logs:" ++ nl) ++ (nl ++ filled_block "POD DATA" "exit {code: 1}" ++ nl).
Proof.
  cbv zeta. split.
  - refine (proj1 (@unfilled_block_removed
             "pod_description" "node_descriptions"
             "POD_DESCRIPTION" "NODE_DESCRIPTIONS"
             "Warning  FailedScheduling  3 node(s) had untolerated taint {special-workload: true}."
             ("### CONTEXT START ###" ++ nl) (nl ++ nl)
             (nl ++ "### CONTEXT END ###")
             _ _ eq_refl _ eq_refl
             _ _ _ _ _
             (or_introl (conj eq_refl (conj eq_refl (conj eq_refl
                                                      (conj eq_refl eq_refl)))))
             _ _ _ _));
      try discriminate; vm_compute; reflexivity.
  - refine (proj1 (@unfilled_block_removed
             "a2" "logs" "POD DATA" "LOGS" "exit {code: 1}"
             ("Logs:" ++ nl) nl nl
             _ _ eq_refl _ eq_refl
             _ _ _ _ _
             (or_intror (conj eq_refl (conj eq_refl (conj eq_refl
                                                      (conj eq_refl eq_refl)))))
             _ _ _ _));
      try discriminate; vm_compute; reflexivity.
Defined.

(** C3 as stated fails: a value that completes a block is stripped with
    its block, whichever block comes first; a block whose key has a
    digit, whose label has a space, or whose header lends its dashes to
    the text before it, is left in place; and so is every block when the
    one key of the context is the sentinel. *)
Lemma unfilled_block_removed_counterexample :
  (* the value of A completes a block of its own and is stripped with it *)
  (let output :=
     assemble_prompt [("a", "{x}")] (block "A" "a" ++ nl ++ block "B" "b") in
   output = nl /\ contains "{x}" output = false)
  (* a key with a digit: B's block stays, markers and placeholder *)
  /\ (let output :=
        assemble_prompt [("a", "up")] (block "A" "a" ++ nl ++ block "B" "b2") in
      output = filled_block "A" "up" ++ nl ++ block "B" "b2"
      /\ contains (header "B") output = true
      /\ contains (footer "B") output = true)
  (* text before B's block that borrows the dashes of its header *)
  /\ (let output :=
        assemble_prompt [("a", "up")]
          (block "A" "a" ++ nl ++ "--- X ---" ++ nl ++ "{y}" ++ nl
           ++ "--- END Z " ++ block "B" "b") in
      contains (footer "B") output = true
      /\ contains (placeholder "b") output = true)
  (* the context holds the sentinel key: nothing is stripped *)
  /\ (let output :=
        assemble_prompt [("kubectl_get_pod_output", "Pending")]
          (block "POD" "kubectl_get_pod_output" ++ nl ++ block "B" "b") in
      contains (block "B" "b") output = true)
  (* B's block first: the value of A is stripped all the same *)
  /\ (let output :=
        assemble_prompt [("a", "{x}")] (block "B" "b" ++ nl ++ block "A" "a") in
      output = nl /\ contains "{x}" output = false)
  (* a label with a space, as in the classification prompt: B's block stays *)
  /\ (let output :=
        assemble_prompt [("a", "up")]
          (block "A" "a" ++ nl ++ block "NODE DATA" "b") in
      output = filled_block "A" "up" ++ nl ++ block "NODE DATA" "b"
      /\ contains (header "NODE DATA") output = true
      /\ contains (footer "NODE DATA") output = true).
Proof. cbv zeta. repeat split; vm_compute; reflexivity. Qed.

(** Why [A]'s placeholder has to stand once: [replace] fills every
    occurrence, so one in the text around the blocks is filled too, and
    one that reaches into [B]'s block takes a part of it along. *)
Remark placeholder_standing_twice :
  assemble_prompt [("a", "up")]
    ("About {a}:" ++ nl ++ block "A" "a" ++ nl ++ block "B" "b")
  = "About up:" ++ nl ++ filled_block "A" "up" ++ nl
  /\ (let A := "b}" ++ nl ++ footer "B" in
      assemble_prompt [(A, "up")] (block "A" A ++ nl ++ block "B" "b" ++ "}")
      = filled_block "A" "up" ++ nl ++ header "B" ++ nl ++ "up").
Proof. cbv zeta. split; vm_compute; reflexivity. Qed.

(** C4.  With a context that holds exactly the sentinel key
    ["kubectl_get_pod_output"] and a template whose only placeholder is
    the sentinel's, the assembled prompt is the result of the one
    [replace], which is the template with the placeholder replaced by the
    value: no other substitution and no block-stripping, whatever the
    value contains. *)
Theorem single_substitution_mode (value pre post : string) :
  no_char "{" pre = true ->
  no_char "{" post = true ->
  assemble_prompt [("kubectl_get_pod_output", value)]
                  (pre ++ "{kubectl_get_pod_output}" ++ post)
  = replace "{kubectl_get_pod_output}" value
            (pre ++ "{kubectl_get_pod_output}" ++ post)
  /\ assemble_prompt [("kubectl_get_pod_output", value)]
                     (pre ++ "{kubectl_get_pod_output}" ++ post)
     = pre ++ value ++ post.
Proof.
  intros Hpre Hpost.
  rewrite (@assemble_prompt_sentinel _ value) by reflexivity.
  split; [reflexivity|].
  apply (replace_placeholder "kubectl_get_pod_output"); assumption.
Qed.

(** C4 on the classification prompt of [main]. *)
Lemma single_substitution_mode_witness :
  assemble_prompt [("kubectl_get_pod_output", "Pending")] classification_prompt
  = "
You are an expert Kubernetes SRE. Classify the failure of the pod below into ONE of these categories:
SchedulingFailure, ImagePullFailure, ConfigurationFailure, InitializationFailure, RuntimeCrash, HealthCheckFailure
--- POD DATA ---
Pending
--- END POD DATA ---
Respond with ONLY the category name.
".
Proof.
  apply (proj2 (single_substitution_mode "Pending" "
You are an expert Kubernetes SRE. Classify the failure of the pod below into ONE of these categories:
SchedulingFailure, ImagePullFailure, ConfigurationFailure, InitializationFailure, RuntimeCrash, HealthCheckFailure
--- POD DATA ---
" "
--- END POD DATA ---
Respond with ONLY the category name.
" eq_refl eq_refl)).
Defined.

(** C5.  When no placeholder remains in the assembled prompt (neither the
    placeholder of a key of the context nor a placeholder line
    [{name}] of the block pattern), assembling the assembled prompt again
    with the same context returns it unchanged. *)
Theorem assemble_prompt_idempotent (template : string) (context : dict string) :
  let assembled := assemble_prompt context template in
  no_key_placeholder context assembled = true ->
  re_search placeholder_re assembled = false ->
  assemble_prompt context assembled = assembled.
Proof.
  intros assembled Hkeys Hblock.
  unfold assemble_prompt at 1.
  destruct (dict_get "kubectl_get_pod_output" context) as [v|] eqn:E.
  - pose proof (dict_get_forallb _ _ _ E Hkeys) as Hk. cbn [fst] in Hk.
    apply negb_true_iff in Hk.
    now apply (replace_placeholder_absent "kubectl_get_pod_output").
  - rewrite substitute_items_absent by assumption.
    now apply re_sub_block_re_no_placeholder.
Qed.

(** C5 on the diagnosis template and a package with the description only. *)
Lemma assemble_prompt_idempotent_witness :
  let context := [("pod_description", "Status: Pending")] in
  let assembled := assemble_prompt context diagnosis_prompt_template in
  no_key_placeholder context assembled = true
  /\ re_search placeholder_re assembled = false
  /\ assemble_prompt context assembled = assembled.
Proof.
  cbv zeta. split; [vm_compute; reflexivity|]. split; [vm_compute; reflexivity|].
  apply (@assemble_prompt_idempotent diagnosis_prompt_template
           [("pod_description", "Status: Pending")]);
    vm_compute; reflexivity.
Defined.

(** The second hypothesis of C5 is needed: stripping a block can bring the
    two halves of another block together, placeholder included. *)
Remark stripping_can_expose_a_block :
  let text := "--- A -" ++ block "X" "x" ++ "--" ++ nl ++ "{a}" ++ nl
              ++ footer "A" in
  assemble_prompt [] text = block "A" "a"
  /\ assemble_prompt [] (assemble_prompt [] text) = "".
Proof. cbv zeta. split; vm_compute; reflexivity. Qed.

(** C6.  The claim has [call_llm] return an error string on a malformed
    response body.  Only [RequestException] is caught: a 200 response
    whose body is the JSON object [{}] makes [response_data["choices"]]
    raise [KeyError], which leaves [call_llm]. *)
Theorem call_llm_raises_on_missing_choices :
  fst (@call_llm nat (scripted empty_object_script)
         "Why is the pod pending?" 4096 start)
  = Raise (KeyError "choices").
Proof. reflexivity. Qed.

(** C7.  [get_pod_name] polls at most five times.  If the first four
    listings hold no pod whose name starts with the pattern and the fifth
    does, it returns that pod's name; if none of the five listings does,
    it returns [None], normally. *)
Theorem get_pod_name_bounded_polling {W : Type} `{World W}
  (pattern : string) (st : state W) :
  (forall name,
      forallb (miss pattern st) (seq 0 4) = true ->
      seen pattern (poll_state 4 st) = Some name ->
      fst (get_pod_name pattern st) = Ok (Some name))
  /\ (forallb (miss pattern st) (seq 0 5) = true ->
      fst (get_pod_name pattern st) = Ok None).
Proof.
  unfold get_pod_name. rewrite (bind_ok _ _ _ (sleep_run 5 st)).
  split.
  - intros name Hmiss Hhit.
    rewrite (@poll_pods_found _ _ pattern name 4 5 (slept 5 st));
      [reflexivity | lia | | exact Hhit].
    exact (@miss_seq _ _ _ _ _ Hmiss).
  - intros Hmiss. rewrite poll_pods_exhausted; [reflexivity|].
    exact (@miss_seq _ _ _ _ _ Hmiss).
Qed.

(** C7 on two scripted executors: a match on the fifth poll, and none. *)
Lemma get_pod_name_bounded_polling_witness :
  fst (@get_pod_name nat (scripted fifth_poll_script) "high-cpu-app-" start)
  = Ok (Some "high-cpu-app-7d9f")
  /\ fst (@get_pod_name nat (scripted no_pod_script) "high-cpu-app-" start)
     = Ok None.
Proof.
  split.
  - apply (proj1 (@get_pod_name_bounded_polling nat (scripted fifth_poll_script)
                    "high-cpu-app-" start)); reflexivity.
  - apply (proj2 (@get_pod_name_bounded_polling nat (scripted no_pod_script)
                    "high-cpu-app-" start)); reflexivity.
Defined.

(** C8, amended.  For a scenario of [SCENARIOS] that the taint gate does
    not skip: if every step that the iteration makes goes well (the
    output of each command it runs is captured; each command it runs in
    strict mode, which is the pre-run command, [kubectl apply] and
    [kubectl get pod] for the identified pod, exits 0; the manifest is
    read; each reply of the endpoint is one on which [call_llm] returns
    text), then the deletion command and after it the post-run command,
    when there is one, are among the steps, whatever the exit status of
    the tolerant commands and whether or not a pod is identified. *)
Theorem cleanup_runs_when_steps_succeed {W : Type} `{World W}
  (node_for_taint : option string) (scenario_id : string)
  (scenario_info : Scenario) (st : state W) (added : list event) :
  In (scenario_id, scenario_info) SCENARIOS ->
  skipped node_for_taint scenario_id = false ->
  trace (snd (run_scenario node_for_taint scenario_id scenario_info st))
  = (trace st ++ added)%list ->
  forallb step_ok added = true ->
  exists before deleted torn_down after,
    added = (before
             ++ cleanup_events node_for_taint scenario_info deleted torn_down
             ++ after)%list.
Proof.
  intros _ Hskip Htrace Hclean.
  destruct (@run_scenario_cleans_up _ _ node_for_taint scenario_id
              scenario_info Hskip st)
    as (added' & E & Hcleanup).
  rewrite E in Htrace. apply app_inv_head in Htrace. subst added'.
  now apply Hcleanup.
Qed.

(** The amended C8 on the taint scenario, on a cluster where the deletion
    exits 1, the endpoint times out, and [kubectl get pod] would fail for
    any pod but the one that is identified. *)
Lemma cleanup_runs_when_steps_succeed_witness :
  exists before deleted torn_down after,
    trace (snd (@run_scenario nat (scripted taint_script) (Some "node1")
                  "2_taint_toleration" taint_scenario start))
    = (before
       ++ [Ran "kubectl delete pod app-needs-toleration --grace-period=0 --force"
               false deleted;
           Ran "kubectl taint nodes node1 special-workload=true:NoSchedule-"
               false torn_down]
       ++ after)%list.
Proof.
  assert (Hin : In ("2_taint_toleration", taint_scenario) SCENARIOS)
    by (simpl; tauto).
  assert (Hskip : skipped (Some "node1") "2_taint_toleration" = false)
    by (vm_compute; reflexivity).
  assert (Hclean :
            forallb step_ok
              (trace (snd (@run_scenario nat (scripted taint_script)
                             (Some "node1") "2_taint_toleration"
                             taint_scenario start))) = true)
    by (vm_compute; reflexivity).
  destruct (@cleanup_runs_when_steps_succeed nat (scripted taint_script)
              (Some "node1") "2_taint_toleration" taint_scenario start
              (trace (snd (@run_scenario nat (scripted taint_script)
                             (Some "node1") "2_taint_toleration"
                             taint_scenario start)))
              Hin Hskip (eq_refl _) Hclean)
    as (before & deleted & torn_down & after & E).
  exists before, deleted, torn_down, after.
  rewrite E. vm_compute. reflexivity.
Defined.

(** C8 as stated fails: when [kubectl apply] exits non-zero in the first
    scenario, [CalledProcessError] leaves [main] and no deletion command is
    ever run. *)
Lemma cleanup_skipped_when_apply_fails :
  let run := @main nat (scripted apply_fails_script) start in
  skipped (Some "node1") "1_insufficient_cpu" = false
  /\ fst run
     = Raise (CalledProcessError
                "kubectl apply -f scenarios/1_insufficient_cpu.yaml" 1 ""
                "error: unable to recognize manifest")
  /\ trace (snd run)
     = [Ran "kubectl get nodes --no-headers -o custom-columns=NAME:.metadata.name,ROLE:.metadata.labels.node-role\.kubernetes\.io/master"
            true (Completed (mkProcess 0 "node1   <none>" ""));
        Opened "scenarios/1_insufficient_cpu.yaml" (Some "kind: Deployment");
        Ran "kubectl apply -f scenarios/1_insufficient_cpu.yaml" true
            (Completed (mkProcess 1 "" "error: unable to recognize manifest"))]
  /\ (forall outcome,
        ~ In (Ran "kubectl delete deployment high-cpu-app --grace-period=0 --force"
                  false outcome)
             (trace (snd run))).
Proof.
  cbv zeta. repeat split; try (vm_compute; reflexivity).
  intros outcome. vm_compute. intros [E | [E | [E | []]]]; discriminate E.
Qed.

(** C9.  A context that holds the sentinel key, alone or with other keys,
    is assembled on the single-substitution path: the result is the one
    [replace] of the sentinel's placeholder, the same as for the context
    that holds the sentinel only, so the other pairs are ignored and no
    block is stripped. *)
Theorem sentinel_membership_selects_single_mode
  (context : dict string) (value template : string) :
  dict_get "kubectl_get_pod_output" context = Some value ->
  assemble_prompt context template
  = replace "{kubectl_get_pod_output}" value template
  /\ assemble_prompt context template
     = assemble_prompt [("kubectl_get_pod_output", value)] template.
Proof.
  intros Hget.
  rewrite (assemble_prompt_sentinel _ _ Hget).
  now rewrite (@assemble_prompt_sentinel [("kubectl_get_pod_output", value)]
                 value template eq_refl).
Qed.

(** C9 on a package with a description and the sentinel: the description
    block stays as it is in the template. *)
Lemma sentinel_membership_selects_single_mode_witness :
  let context := [("pod_description", "Name: web");
                  ("kubectl_get_pod_output", "Pending")] in
  let template := block "POD_DESCRIPTION" "pod_description" ++ nl
                  ++ "{kubectl_get_pod_output}" in
  dict_get "kubectl_get_pod_output" context = Some "Pending"
  /\ assemble_prompt context template
     = block "POD_DESCRIPTION" "pod_description" ++ nl ++ "Pending".
Proof.
  cbv zeta. split; [reflexivity|].
  etransitivity.
  - apply (sentinel_membership_selects_single_mode
             [("pod_description", "Name: web");
              ("kubectl_get_pod_output", "Pending")]
             (value := "Pending")).
    reflexivity.
  - reflexivity.
Defined.

(** C10.  In multi-block mode the substitutions are made one after the
    other in the order of the keys: when the value of the first key
    contains the placeholder of the second, that occurrence is replaced by
    the second key's value. *)
Theorem substitution_is_sequential (k1 k2 v2 pre post a b : string) :
  k1 <> k2 ->
  k1 <> "kubectl_get_pod_output" -> k2 <> "kubectl_get_pod_output" ->
  no_char "{" pre = true -> no_char "{" post = true ->
  no_char "{" a = true -> no_char "{" b = true -> no_char "{" v2 = true ->
  assemble_prompt [(k1, a ++ placeholder k2 ++ b); (k2, v2)]
                  (pre ++ placeholder k1 ++ post)
  = pre ++ a ++ v2 ++ b ++ post.
Proof.
  intros _ H1 H2 Hpre Hpost Ha Hb Hv.
  unfold assemble_prompt. cbn [dict_get].
  apply String.eqb_neq in H1, H2. rewrite H1, H2.
  unfold substitute_items. cbn [fold_left fst snd].
  rewrite replace_placeholder by assumption.
  replace (pre ++ (a ++ placeholder k2 ++ b) ++ post)
    with ((pre ++ a) ++ placeholder k2 ++ b ++ post)
    by (now rewrite !append_assoc).
  rewrite replace_placeholder
    by (rewrite no_char_append; now rewrite ?Hpre, ?Ha, ?Hb, ?Hpost).
  rewrite re_sub_block_re_brace_free.
  - now rewrite !append_assoc.
  - rewrite !no_char_append. now rewrite Hpre, Ha, Hv, Hb, Hpost.
Qed.

(** C10 on a description that quotes the placeholder of the node listing. *)
Lemma substitution_is_sequential_witness :
  assemble_prompt
    [("pod_description", "see " ++ placeholder "node_descriptions" ++ "!");
     ("node_descriptions", "node-1 Ready")]
    ("A: " ++ placeholder "pod_description" ++ " :Z")
  = "A: see node-1 Ready! :Z".
Proof.
  apply (@substitution_is_sequential
           "pod_description" "node_descriptions" "node-1 Ready"
           "A: " " :Z" "see " "!");
    try reflexivity; discriminate.
Defined.

(** The order matters: the placeholder of an earlier key inside the value
    of a later one is left as it is. *)
Remark earlier_placeholder_in_later_value :
  assemble_prompt
    [("pod_description", "web"); ("node_descriptions", "see {pod_description}")]
    ("A: {node_descriptions}")
  = "A: see {pod_description}".
Proof. vm_compute. reflexivity. Qed.
(* ================================================================== *)
(** ** Further properties: trimmed text *)
(* ================================================================== *)

Lemma rstrip_idempotent s : rstrip (rstrip s) = rstrip s.
Proof.
  induction s as [|c s IH]; [reflexivity|].
  cbn [rstrip]. destruct (rstrip s) as [|d r] eqn:E.
  - destruct (isspace c) eqn:Hc; [reflexivity|].
    cbn [rstrip]. now rewrite Hc.
  - cbn [rstrip] in *. now rewrite IH.
Qed.

(** Text that does not start with a space still does not after [rstrip]. *)
Lemma lstrip_rstrip_fixed s : lstrip s = s -> lstrip (rstrip s) = rstrip s.
Proof.
  destruct s as [|c s]; [reflexivity|].
  cbn [lstrip]. destruct (isspace c) eqn:Hc.
  - intros E. exfalso.
    assert (Hlen : forall t, String.length (lstrip t) <= String.length t).
    { induction t as [|a t IHt]; simpl; [lia|].
      destruct (isspace a); simpl; lia. }
    specialize (Hlen s). rewrite E in Hlen. simpl in Hlen. lia.
  - intros _. cbn [rstrip].
    destruct (rstrip s); rewrite ?Hc; cbn [lstrip]; now rewrite Hc.
Qed.

Lemma lstrip_idempotent s : lstrip (lstrip s) = lstrip s.
Proof.
  induction s as [|c s IH]; [reflexivity|].
  cbn [lstrip]. destruct (isspace c) eqn:Hc; [assumption|].
  cbn [lstrip]. now rewrite Hc.
Qed.

Lemma strip_idempotent s : strip (strip s) = strip s.
Proof.
  unfold strip.
  rewrite (lstrip_rstrip_fixed (lstrip_idempotent s)).
  apply rstrip_idempotent.
Qed.

(* ================================================================== *)
(** ** Further properties of [run_command] and [call_llm] *)
(* ================================================================== *)

(** X1.  Whenever [run_command] returns, in either mode, what it returns
    is the trimmed standard output of a command whose output was
    captured, never the standard error text; in strict mode the exit
    status was 0; and exactly that one command has been run. *)
Theorem run_command_returns_stdout {W : Type} `{World W}
  (command : string) (check : bool) (st st' : state W) (out : string) :
  run_command command check st = (Ok out, st') ->
  exists p,
    outcome_of command st = Completed p
    /\ out = strip (stdout p)
    /\ (check = true -> returncode p = 0%Z)
    /\ st' = ran command check st.
Proof.
  destruct (outcome_of command st) as [p | e] eqn:E.
  - destruct check.
    + destruct (Z.eq_dec (returncode p) 0) as [Hz | Hnz].
      * rewrite (run_command_strict_ok _ _ E Hz). intros [= <- <-].
        now exists p.
      * rewrite (run_command_strict_fail _ _ E Hnz). discriminate.
    + rewrite (run_command_tolerant _ _ E). intros [= <- <-].
      exists p. repeat split. discriminate.
  - rewrite (run_command_failed _ check _ E). discriminate.
Qed.

Lemma run_command_returns_stdout_witness :
  exists p,
    @outcome_of nat (scripted failing_describe_script)
      "kubectl describe nodes" start = Completed p
    /\ "partial listing" = strip (stdout p)
    /\ (false = true -> returncode p = 0%Z)
    /\ mkState 1 [Ran "kubectl describe nodes" false
                      (Completed (mkProcess 1 "  partial listing "
                                    "Error from server (NotFound)"))]
       = @ran nat (scripted failing_describe_script)
           "kubectl describe nodes" false start.
Proof.
  apply (@run_command_returns_stdout nat (scripted failing_describe_script)
           "kubectl describe nodes" false start).
  reflexivity.
Defined.

(** X2.  Whatever [run_command] returns is trimmed: stripping it again,
    as [get_worker_node] does, changes nothing. *)
Theorem run_command_result_is_trimmed {W : Type} `{World W}
  (command : string) (check : bool) (st st' : state W) (out : string) :
  run_command command check st = (Ok out, st') -> strip out = out.
Proof.
  destruct (outcome_of command st) as [p | e] eqn:E.
  - destruct check.
    + destruct (Z.eq_dec (returncode p) 0) as [Hz | Hnz].
      * rewrite (run_command_strict_ok _ _ E Hz). intros [= <- _].
        apply strip_idempotent.
      * rewrite (run_command_strict_fail _ _ E Hnz). discriminate.
    + rewrite (run_command_tolerant _ _ E). intros [= <- _].
      apply strip_idempotent.
  - rewrite (run_command_failed _ check _ E). discriminate.
Qed.

Lemma run_command_result_is_trimmed_witness :
  strip "node1   <none>" = "node1   <none>".
Proof.
  apply (@run_command_result_is_trimmed nat
           (scripted (constant_script (mkProcess 0 "  node1   <none>
" "") (PostRaised "")))
           "kubectl get nodes" true start
           (mkState 1 [Ran "kubectl get nodes" true
                           (Completed (mkProcess 0 "  node1   <none>
" ""))])).
  reflexivity.
Defined.

(** X3.  A failure of [subprocess.run] itself is raised by [run_command]
    in tolerant mode as in strict mode, as the exception it is, after
    the one command. *)
Theorem run_command_does_not_tolerate_run_errors {W : Type} `{World W}
  (command : string) (check : bool) (st : state W) (e : run_error) :
  outcome_of command st = RunFailed e ->
  run_command command check st
  = (Raise (exn_of_run_error e), ran command check st)
  /\ (forall cmd rc out err,
         exn_of_run_error e <> CalledProcessError cmd rc out err).
Proof.
  intros E. split; [now apply run_command_failed|].
  intros cmd rc out err. destruct e; discriminate.
Qed.

Lemma run_command_does_not_tolerate_run_errors_witness :
  @run_command nat (scripted binary_logs_script)
    "kubectl logs buggy-app-pod --previous" false start
  = (Raise UnicodeDecodeError,
     mkState 1 [Ran "kubectl logs buggy-app-pod --previous" false
                    (RunFailed UndecodableOutput)]).
Proof.
  apply (proj1 (@run_command_does_not_tolerate_run_errors nat
                  (scripted binary_logs_script)
                  "kubectl logs buggy-app-pod --previous" false start
                  UndecodableOutput eq_refl)).
Defined.

Ltac run_call_llm :=
  unfold call_llm, posted;
  cbv beta iota delta [try_except bind interact ret raise raise_for_status
                       response_json getitem_str getitem_0 get_method
                       dict_get_default].

(** X4.  [call_llm] returns text exactly on the replies described by
    [yields_text]: on every other reply it raises, or returns a value
    that is not a string. *)
Theorem call_llm_text_iff {W : Type} `{World W}
  (prompt : string) (max_tokens : Z) (st : state W) :
  (exists text, fst (call_llm prompt max_tokens st) = Ok (JStr text))
  <-> yields_text (fst (http_post prompt max_tokens (world st))) = true.
Proof.
  split.
  - run_call_llm.
    destruct (http_post prompt max_tokens (world st)) as [[msg | r] w'];
      cbn [fst snd yields_text]; [reflexivity|].
    destruct ((400 <=? status_code r) && (status_code r <? 500))%Z;
      [reflexivity|].
    destruct ((500 <=? status_code r) && (status_code r <? 600))%Z;
      [reflexivity|].
    destruct (content r) as [err | j]; [reflexivity|].
    unfold well_shaped.
    destruct j as [| | | | |d]; try (intros [text E]; discriminate E).
    destruct (dict_get "choices" d)
      as [[| | |[|c s]|[|[| | | | |choice] l]|]|];
      try (intros [text E]; discriminate E).
    destruct (dict_get "message" choice) as [[| | | | |message]|];
      try (intros [text E]; discriminate E); [|reflexivity].
    destruct (dict_get "content" message) as [[| | |text'| |]|];
      try (intros [text E]; discriminate E); reflexivity.
  - intros Hy. destruct (call_llm_text prompt max_tokens st Hy) as [text E].
    exists text. now rewrite E.
Qed.

(** X5.  A failed request is reported as text, never raised: when the
    post raises, the status is 4xx or 5xx, or the body is not JSON,
    [call_llm] returns a string that starts with ["API Request Error: "]. *)
Theorem call_llm_reports_request_failure {W : Type} `{World W}
  (prompt : string) (max_tokens : Z) (st : state W) :
  request_failed (fst (http_post prompt max_tokens (world st))) = true ->
  exists msg,
    fst (call_llm prompt max_tokens st)
    = Ok (JStr ("API Request Error: " ++ msg)).
Proof.
  run_call_llm.
  destruct (http_post prompt max_tokens (world st)) as [[msg | r] w'];
    cbn [fst snd request_failed]; [intros _; eexists; reflexivity|].
  destruct ((400 <=? status_code r) && (status_code r <? 500))%Z eqn:E4;
    [intros _; eexists; reflexivity|].
  destruct ((500 <=? status_code r) && (status_code r <? 600))%Z eqn:E5;
    [intros _; eexists; reflexivity|].
  destruct (content r) as [err | j]; [intros _; eexists; reflexivity|].
  rewrite orb_false_r. intros E. exfalso.
  apply andb_prop in E as [Elo Ehi].
  rewrite Elo in E4. rewrite Ehi in E5. simpl in E4. rewrite andb_true_r in E5.
  apply Z.ltb_ge in E4. apply Z.leb_gt in E5. lia.
Qed.

Lemma call_llm_reports_request_failure_witness :
  let world503 :=
    scripted (constant_script (mkProcess 0 "" "")
                (PostReturned (mkResponse 503 "Service Unavailable"
                                 (NotJson "Expecting value")))) in
  request_failed (fst (@http_post nat world503 "Why is the pod pending?" 4096 0))
  = true
  /\ exists msg,
      fst (@call_llm nat world503 "Why is the pod pending?" 4096 start)
      = Ok (JStr ("API Request Error: " ++ msg)).
Proof.
  cbv zeta. split; [reflexivity|].
  apply (@call_llm_reports_request_failure nat
           (scripted (constant_script (mkProcess 0 "" "")
                        (PostReturned (mkResponse 503 "Service Unavailable"
                                         (NotJson "Expecting value")))))
           "Why is the pod pending?" 4096 start).
  reflexivity.
Defined.

(** X6.  When the status is not an error status and the body has a
    [choices] list whose first element holds a [message] object with a
    [content] entry, [call_llm] returns that entry as it is (also when the
    status is not 2xx, and also when the entry is not a string). *)
Theorem call_llm_returns_content {W : Type} `{World W}
  (prompt : string) (max_tokens : Z) (st : state W)
  (status : Z) (why : string) (d choice message : list (string * json))
  (more : list json) (v : json) :
  fst (http_post prompt max_tokens (world st))
  = PostReturned (mkResponse status why (Json (JObj d))) ->
  ((status <? 400) || (600 <=? status))%Z = true ->
  dict_get "choices" d = Some (JArr (JObj choice :: more)) ->
  dict_get "message" choice = Some (JObj message) ->
  dict_get "content" message = Some v ->
  fst (call_llm prompt max_tokens st) = Ok v.
Proof.
  run_call_llm.
  destruct (http_post prompt max_tokens (world st)) as [p w'].
  cbn [fst snd]. intros -> Hs Hc Hm Hv. cbn [status_code reason content].
  assert (E4 : ((400 <=? status) && (status <? 500))%Z = false).
  { apply orb_prop in Hs as [Hs | Hs];
      [apply Z.ltb_lt in Hs | apply Z.leb_le in Hs].
    - apply andb_false_intro1. apply Z.leb_gt. lia.
    - apply andb_false_intro2. apply Z.ltb_ge. lia. }
  assert (E5 : ((500 <=? status) && (status <? 600))%Z = false).
  { apply orb_prop in Hs as [Hs | Hs];
      [apply Z.ltb_lt in Hs | apply Z.leb_le in Hs].
    - apply andb_false_intro1. apply Z.leb_gt. lia.
    - apply andb_false_intro2. apply Z.ltb_ge. lia. }
  rewrite E4, E5, Hc, Hm, Hv. reflexivity.
Qed.

Lemma call_llm_returns_content_witness :
  fst (@call_llm nat
         (scripted (constant_script (mkProcess 0 "" "")
                      (json_reply 302
                         (JObj [("choices",
                                 JArr [JObj [("message",
                                              JObj [("content", JNull)])]])]))))
         "Why is the pod pending?" 4096 start)
  = Ok JNull.
Proof.
  apply (@call_llm_returns_content nat _ _ _ _ 302 ""
           [("choices", JArr [JObj [("message", JObj [("content", JNull)])]])]
           [("message", JObj [("content", JNull)])]
           [("content", JNull)] [] JNull);
    reflexivity.
Defined.

(** X7.  When the first choice has no [message] entry, or its message has
    no [content] entry, [call_llm] returns the fixed text
    ["Error: 'content' key not found in message."]. *)
Theorem call_llm_default_text {W : Type} `{World W}
  (prompt : string) (max_tokens : Z) (st : state W)
  (status : Z) (why : string) (d choice : list (string * json))
  (more : list json) :
  fst (http_post prompt max_tokens (world st))
  = PostReturned (mkResponse status why (Json (JObj d))) ->
  ((status <? 400) || (600 <=? status))%Z = true ->
  dict_get "choices" d = Some (JArr (JObj choice :: more)) ->
  dict_get "message" choice = None
  \/ (exists message, dict_get "message" choice = Some (JObj message)
                      /\ dict_get "content" message = None) ->
  fst (call_llm prompt max_tokens st)
  = Ok (JStr "Error: 'content' key not found in message.").
Proof.
  run_call_llm.
  destruct (http_post prompt max_tokens (world st)) as [p w'].
  cbn [fst snd]. intros -> Hs Hc Hm. cbn [status_code reason content].
  assert (E4 : ((400 <=? status) && (status <? 500))%Z = false).
  { apply orb_prop in Hs as [Hs | Hs];
      [apply Z.ltb_lt in Hs | apply Z.leb_le in Hs].
    - apply andb_false_intro1. apply Z.leb_gt. lia.
    - apply andb_false_intro2. apply Z.ltb_ge. lia. }
  assert (E5 : ((500 <=? status) && (status <? 600))%Z = false).
  { apply orb_prop in Hs as [Hs | Hs];
      [apply Z.ltb_lt in Hs | apply Z.leb_le in Hs].
    - apply andb_false_intro1. apply Z.leb_gt. lia.
    - apply andb_false_intro2. apply Z.ltb_ge. lia. }
  rewrite E4, E5, Hc.
  destruct Hm as [Hm | (message & Hm & Hv)]; rewrite Hm; [reflexivity|].
  now rewrite Hv.
Qed.

Lemma call_llm_default_text_witness :
  fst (@call_llm nat
         (scripted (constant_script (mkProcess 0 "" "")
                      (json_reply 200 (JObj [("choices", JArr [JObj []])]))))
         "Why is the pod pending?" 4096 start)
  = Ok (JStr "Error: 'content' key not found in message.").
Proof.
  apply (@call_llm_default_text nat _ _ _ _ 200 ""
           [("choices", JArr [JObj []])] [] []);
    try reflexivity.
  left. reflexivity.
Defined.

(** X8.  Every call of [call_llm] sends exactly one request, whether it
    returns or raises: there is no retry, and nothing else is done. *)
Theorem call_llm_posts_once {W : Type} `{World W}
  (prompt : string) (max_tokens : Z) (st : state W) :
  snd (call_llm prompt max_tokens st) = posted prompt max_tokens st.
Proof.
  run_call_llm.
  destruct (http_post prompt max_tokens (world st)) as [[msg | r] w'];
    cbn [fst snd]; [reflexivity|].
  destruct ((400 <=? status_code r) && (status_code r <? 500))%Z;
    [reflexivity|].
  destruct ((500 <=? status_code r) && (status_code r <? 600))%Z;
    [reflexivity|].
  destruct (content r) as [err | j]; [reflexivity|].
  destruct j as [| | | | |d]; try reflexivity.
  destruct (dict_get "choices" d)
    as [[| | |[|c s]|[|[| | | | |choice] l]|]|]; try reflexivity.
  destruct (dict_get "message" choice) as [[| | | | |message]|];
    reflexivity.
Qed.

(* ================================================================== *)
(** ** Further properties of [perceive_context] *)
(* ================================================================== *)

Lemma prefix_nil s : prefix "" s = true.
Proof. now destruct s. Qed.

(** X9.  [perceive_context] only issues read commands: whatever the
    classification and whatever the commands answer, it runs one or two
    commands and nothing else, in tolerant mode; the first is
    [kubectl describe pod] for the pod, and the command line of a second
    one begins with [kubectl describe], [kubectl get] or
    [kubectl logs]. *)
Theorem perceive_context_reads_only {W : Type} `{World W}
  (pod_name classification : string) (st : state W) :
  exists first others,
    trace (snd (perceive_context pod_name classification st))
    = (trace st
       ++ Ran ("kubectl describe pod " ++ pod_name) false first :: others)%list
    /\ (List.length others <= 1)%nat
    /\ forallb reads_only others = true.
Proof.
  unfold perceive_context.
  set (desc_cmd := "kubectl describe pod " ++ pod_name).
  destruct (outcome_of desc_cmd st) as [p | e] eqn:Ed.
  2:{ rewrite (bind_raise _ _ _ (run_command_failed _ false _ Ed)).
      cbn [snd]. rewrite trace_ran, Ed.
      exists (RunFailed e), []. repeat split; auto. }
  rewrite (bind_ok _ _ _ (run_command_tolerant _ _ Ed)).
  set (st1 := ran desc_cmd false st).
  assert (Hnone : forall context : dict string,
    exists first others,
      trace (snd (ret context st1))
      = (trace st ++ Ran desc_cmd false first :: others)%list
      /\ (List.length others <= 1)%nat
      /\ forallb reads_only others = true).
  { intros context. unfold ret, st1. cbn [snd]. rewrite trace_ran, Ed.
    exists (Completed p), []. repeat split; auto. }
  assert (Hsecond : forall command (f : string -> dict string),
    read_only command = true ->
    exists first others,
      trace (snd ((out <- run_command command false ;; ret (f out)) st1))
      = (trace st ++ Ran desc_cmd false first :: others)%list
      /\ (List.length others <= 1)%nat
      /\ forallb reads_only others = true).
  { intros command f Hread.
    exists (Completed p),
           [Ran command false (outcome_of command st1)].
    cbn [List.length forallb reads_only]. rewrite Hread.
    repeat split; auto.
    destruct (outcome_of command st1) as [p2 | e2] eqn:E2.
    - rewrite (bind_ok _ _ _ (run_command_tolerant _ _ E2)).
      unfold ret. cbn [snd]. rewrite trace_ran, E2. unfold st1.
      now rewrite trace_ran, Ed, <- app_assoc.
    - rewrite (bind_raise _ _ _ (run_command_failed _ false _ E2)).
      cbn [snd]. rewrite trace_ran, E2. unfold st1.
      now rewrite trace_ran, Ed, <- app_assoc. }
  repeat match goal with
         | |- context [if ?c then _ else _] => destruct c
         end;
    try apply Hnone;
    apply (Hsecond _ (fun out => dict_set _ out _));
    unfold read_only; cbn; rewrite ?prefix_nil; reflexivity.
Qed.

Lemma prefix_one c a s : prefix (String c "") (String a s) = Ascii.eqb c a.
Proof.
  rewrite prefix_cons. destruct s; simpl; now rewrite andb_true_r.
Qed.

(** Removing a character leaves none of it. *)
Lemma replace_char_removes c s :
  no_char c (replace (String c "") "" s) = true.
Proof.
  unfold replace. induction s as [|a s IH]; [reflexivity|].
  cbn [replace_from]. rewrite prefix_one.
  destruct (Ascii.eqb c a) eqn:E.
  - exact IH.
  - cbn [no_char]. rewrite IH, andb_true_r, Ascii.eqb_sym. now rewrite E.
Qed.

Lemma first_init_container_no_colon lines :
  no_char ":" (first_init_container lines) = true.
Proof.
  induction lines as [|line rest IH]; [reflexivity|].
  cbn [first_init_container].
  destruct (endswith ":" (strip line)); [apply replace_char_removes | exact IH].
Qed.

(** X10.  The init-container name that [perceive_context] puts into the
    [kubectl logs] command never contains a colon. *)
Theorem find_init_container_name_no_colon (pod_description : string) :
  no_char ":" (find_init_container_name pod_description) = true.
Proof.
  unfold find_init_container_name.
  destruct (list_index "Init Containers:" (split LF pod_description));
    [apply first_init_container_no_colon | reflexivity].
Qed.

(** X11.  For an InitializationFailure, when the description that was
    captured names the init container [name], the second command is
    [kubectl logs <pod> -c <name> --previous], in tolerant mode, and it
    is the last thing [perceive_context] does. *)
Theorem init_container_logs_command {W : Type} `{World W}
  (pod_name name : string) (st : state W) (p : CompletedProcess) :
  outcome_of ("kubectl describe pod " ++ pod_name) st = Completed p ->
  names_init_container (strip (stdout p)) name ->
  snd (perceive_context pod_name "InitializationFailure" st)
  = ran ("kubectl logs " ++ pod_name ++ " -c " ++ name ++ " --previous") false
        (ran ("kubectl describe pod " ++ pod_name) false st).
Proof.
  intros Ed Hname. unfold perceive_context.
  rewrite (bind_ok _ _ _ (run_command_tolerant _ _ Ed)).
  cbn [dict_set].
  change (dict_get_default "pod_description" ""
            [("pod_description", strip (stdout p))])
    with (strip (stdout p)).
  rewrite (find_init_container_name_sound Hname).
  destruct Hname as (_ & _ & _ & _ & _ & _ & _ & _ & _ & Hne).
  apply String.eqb_neq in Hne.
  change ("InitializationFailure" =? "SchedulingFailure") with false.
  change ("InitializationFailure" =? "ImagePullFailure") with false.
  change ("InitializationFailure" =? "ConfigurationFailure") with false.
  change ("InitializationFailure" =? "InitializationFailure") with true.
  cbv iota. rewrite Hne.
  set (logs_cmd := "kubectl logs " ++ pod_name ++ " -c " ++ name
                   ++ " --previous").
  set (st1 := ran _ false st).
  destruct (outcome_of logs_cmd st1) as [p2 | e2] eqn:E2.
  - now rewrite (bind_ok _ _ _ (run_command_tolerant _ _ E2)).
  - now rewrite (bind_raise _ _ _ (run_command_failed _ false _ E2)).
Qed.

Lemma init_container_logs_command_witness :
  trace (snd (@perceive_context nat (scripted init_container_script)
                "app-with-failing-init" "InitializationFailure" start))
  = [Ran "kubectl describe pod app-with-failing-init" false
         (Completed (mkProcess 0 "Name: app-with-failing-init
Init Containers:
  init-db:
    Image: busybox
Containers:
  app:" ""));
     Ran "kubectl logs app-with-failing-init -c init-db --previous" false
         (Completed (mkProcess 1 ""
                       "previous terminated container not found"))].
Proof.
  rewrite (@init_container_logs_command nat (scripted init_container_script)
             "app-with-failing-init" "init-db" start
             (mkProcess 0 "Name: app-with-failing-init
Init Containers:
  init-db:
    Image: busybox
Containers:
  app:" "") eq_refl).
  - reflexivity.
  - exists ["Name: app-with-failing-init"], [], "  init-db:",
           ["    Image: busybox"; "Containers:"; "  app:"].
    repeat split; try reflexivity. discriminate.
Defined.

(* ================================================================== *)
(** ** Further properties of [reason_llm]: any number of blocks *)
(* ================================================================== *)

Lemma dict_get_app_last {V} k (done : dict V) K (value : V) :
  dict_get k (done ++ [(K, value)])%list
  = match dict_get k done with
    | Some v => Some v
    | None => if K =? k then Some value else None
    end.
Proof.
  induction done as [|[k' v'] done IH]; [reflexivity|].
  cbn [app dict_get]. now destruct (k' =? k).
Qed.

Lemma unique_not_before K (value : string) (done rest : dict string) :
  unique (map fst (done ++ (K, value) :: rest)%list) = true ->
  dict_get K done = None.
Proof.
  induction done as [|[k v] done IH]; [reflexivity|].
  cbn [app map fst unique dict_get]. intros Hu.
  apply andb_prop in Hu as [Hk Hu].
  destruct (k =? K) eqn:E; [|now apply IH].
  apply String.eqb_eq in E. subst k. apply negb_true_iff in Hk.
  assert (Hin : existsb (String.eqb K) (map fst (done ++ (K, value) :: rest)%list)
                = true).
  { apply existsb_exists. exists K. split; [|apply String.eqb_refl].
    rewrite map_app. apply in_or_app. right. now left. }
  congruence.
Qed.

Lemma well_formed_segment_inv label key after :
  well_formed_segment (label, key, after) = true ->
  label <> "" /\ all_in upper_us label = true
  /\ key <> "" /\ all_in lower_us key = true /\ no_char "{" after = true.
Proof.
  unfold well_formed_segment. intros Hw.
  repeat (apply andb_prop in Hw as [Hw ?]).
  repeat split; try assumption.
  - apply negb_true_iff, String.eqb_neq in Hw. exact Hw.
  - match goal with
    | Hk : negb (key =? "") = true |- _ =>
        apply negb_true_iff, String.eqb_neq in Hk; exact Hk
    end.
Qed.

(** One step of the substitution loop: the blocks of the key are filled,
    the others are left as they are. *)
Lemma replace_fills_key done K value segs :
  dict_get K done = None -> no_char "}" K = true ->
  forallb plain_entry done = true -> no_char "{" value = true ->
  forallb well_formed_segment segs = true ->
  forall text, no_char "{" text = true ->
    replace_from (placeholder K) value 0 (text ++ filled_where done segs)
    = text ++ filled_where (done ++ [(K, value)])%list segs.
Proof.
  intros HK HKc Hdone Hv Hsegs.
  induction segs as [|[[label key] after] segs IH]; intros text Ht.
  - cbn [filled_where]. rewrite append_nil_r.
    now apply replace_from_placeholder_absent.
  - cbn [forallb] in Hsegs. apply andb_prop in Hsegs as [Hseg Hsegs].
    apply well_formed_segment_inv in Hseg as (_ & Hlu & _ & Hkl & Ha).
    specialize (IH Hsegs). cbn [filled_where].
    rewrite dict_get_app_last.
    destruct (dict_get key done) as [v|] eqn:Eg.
    + (* already filled: brace-free text *)
      pose proof (dict_get_forallb _ _ _ Eg Hdone) as Hp.
      unfold plain_entry in Hp. cbn [fst snd] in Hp.
      apply andb_prop in Hp as [_ Hvb].
      rewrite <- !append_assoc. rewrite (append_assoc text).
      rewrite IH.
      * now rewrite !append_assoc.
      * rewrite !no_char_append, filled_block_no_brace, Ht, Ha by assumption.
        reflexivity.
    + destruct (K =? key) eqn:EK.
      * (* the block of the key *)
        apply String.eqb_eq in EK. subst key.
        replace (text ++ block label K ++ after ++ filled_where done segs)
          with ((text ++ header label ++ nl) ++ placeholder K
                ++ (nl ++ footer label ++ after) ++ filled_where done segs)
          by (unfold block; now rewrite !append_assoc).
        rewrite replace_from_placeholder_copy
          by (rewrite !no_char_append, header_no_brace, Ht by assumption;
              reflexivity).
        rewrite replace_from_placeholder_here.
        rewrite IH
          by (rewrite !no_char_append, footer_no_brace, Ha by assumption;
              reflexivity).
        unfold filled_block. now rewrite !append_assoc.
      * (* the block of another key *)
        apply String.eqb_neq in EK.
        replace (text ++ block label key ++ after ++ filled_where done segs)
          with ((text ++ header label ++ nl) ++ placeholder key
                ++ (nl ++ footer label ++ after) ++ filled_where done segs)
          by (unfold block; now rewrite !append_assoc).
        rewrite replace_from_passes_placeholder; try assumption.
        2:{ rewrite !no_char_append, header_no_brace, Ht by assumption.
            reflexivity. }
        rewrite IH
          by (rewrite !no_char_append, footer_no_brace, Ha by assumption;
              reflexivity).
        unfold block. now rewrite !append_assoc.
Qed.

(** The substitution loop fills the blocks of all the keys it is given. *)
Lemma substitute_items_fills context :
  forall done pre segs,
    unique (map fst (done ++ context)%list) = true ->
    forallb plain_entry (done ++ context)%list = true ->
    forallb well_formed_segment segs = true ->
    no_char "{" pre = true ->
    substitute_items context (pre ++ filled_where done segs)
    = pre ++ filled_where (done ++ context)%list segs.
Proof.
  induction context as [|[K value] context IH]; intros done pre segs Hu Hp Hs Hpre.
  - now rewrite app_nil_r.
  - unfold substitute_items in *. cbn [fold_left fst snd].
    rewrite replace_placeholder_from.
    pose proof Hp as Hp'. rewrite forallb_app in Hp'.
    apply andb_prop in Hp' as [Hdone Hctx]. cbn [forallb] in Hctx.
    apply andb_prop in Hctx as [HK _]. unfold plain_entry in HK.
    cbn [fst snd] in HK. apply andb_prop in HK as [HKc Hv].
    rewrite replace_fills_key; try assumption.
    + rewrite IH; try assumption.
      * now rewrite <- app_assoc.
      * now rewrite <- app_assoc.
      * now rewrite <- app_assoc.
    + exact (unique_not_before _ _ _ _ Hu).
Qed.

(** The stripping pass keeps the filled blocks and cuts the others out. *)
Lemma re_sub_strips_unfilled done segs :
  forallb plain_entry done = true ->
  forallb well_formed_segment segs = true ->
  forall text, no_char "{" text = true ->
    re_sub_from block_re "" 0 (text ++ filled_where done segs)
    = text ++ assembled_blocks done segs.
Proof.
  intros Hdone Hsegs.
  induction segs as [|[[label key] after] segs IH]; intros text Ht.
  - cbn [filled_where assembled_blocks]. rewrite append_nil_r.
    now apply re_sub_block_re_brace_free.
  - cbn [forallb] in Hsegs. apply andb_prop in Hsegs as [Hseg Hsegs].
    apply well_formed_segment_inv in Hseg as (Hln & Hlu & Hkn & Hkl & Ha).
    specialize (IH Hsegs). cbn [filled_where assembled_blocks].
    destruct (dict_get key done) as [v|] eqn:Eg.
    + pose proof (dict_get_forallb _ _ _ Eg Hdone) as Hp.
      unfold plain_entry in Hp. cbn [fst snd] in Hp.
      apply andb_prop in Hp as [_ Hvb].
      rewrite <- !append_assoc. rewrite (append_assoc text).
      rewrite IH.
      * now rewrite !append_assoc.
      * rewrite !no_char_append, filled_block_no_brace, Ht, Ha by assumption.
        reflexivity.
    + assert (E : block label key ++ after ++ filled_where done segs
                  = header label ++ nl ++ "{"
                    ++ (key ++ "}" ++ nl ++ footer label ++ after
                        ++ filled_where done segs)).
      { unfold block, placeholder. rewrite !append_assoc. reflexivity. }
      rewrite E, re_sub_before_header by assumption. rewrite <- E. f_equal.
      rewrite re_sub_from_match;
        [| apply block_nonempty | now apply block_re_match_block].
      now apply IH.
Qed.

(** X12.  Multi-block assembly of a template with any number of
    well-formed blocks separated by brace-free text: for a context
    without the sentinel key, with distinct keys, no closing brace in a
    key and no opening brace in a value, every block whose key is in the
    context is filled with its value and every other block is cut out
    whole, leaving the surrounding text as it is. *)
Theorem assemble_prompt_blocks
  (context : dict string) (pre : string) (segs : list segment) :
  dict_get "kubectl_get_pod_output" context = None ->
  unique (map fst context) = true ->
  forallb plain_entry context = true ->
  forallb well_formed_segment segs = true ->
  no_char "{" pre = true ->
  assemble_prompt context (pre ++ blocks_of segs)
  = pre ++ assembled_blocks context segs.
Proof.
  intros Hs Hu Hp Hsegs Hpre. unfold assemble_prompt, blocks_of.
  rewrite Hs.
  rewrite (@substitute_items_fills context [] pre segs) by assumption.
  cbn [app]. unfold re_sub. now apply re_sub_strips_unfilled.
Qed.

Lemma assemble_prompt_blocks_witness :
  diagnosis_prompt_template = diagnosis_preamble ++ blocks_of diagnosis_segments
  /\ assemble_prompt
       [("pod_description", "Status: Pending");
        ("node_descriptions", "node-1 Ready")]
       diagnosis_prompt_template
     = diagnosis_preamble
       ++ filled_block "POD_DESCRIPTION" "Status: Pending" ++ nl ++ nl
       ++ filled_block "NODE_DESCRIPTIONS" "node-1 Ready" ++ nl ++ nl
       ++ nl ++ nl ++ nl ++ nl ++ nl ++ nl
       ++ diagnosis_closing.
Proof.
  split; [reflexivity|].
  apply (@assemble_prompt_blocks
           [("pod_description", "Status: Pending");
            ("node_descriptions", "node-1 Ready")]
           diagnosis_preamble diagnosis_segments);
    reflexivity.
Defined.


Lemma substitute_items_brace_free context s :
  no_char "{" s = true -> substitute_items context s = s.
Proof.
  intros Hs. unfold substitute_items.
  induction context as [|[k v] context IH]; [reflexivity|].
  cbn [fold_left fst snd].
  rewrite replace_placeholder_from, replace_from_placeholder_absent
    by assumption.
  exact IH.
Qed.

(** X13.  A template without an opening brace comes out of the assembly
    unchanged, whatever the context holds. *)
Theorem assemble_prompt_brace_free (context : dict string) (template : string) :
  no_char "{" template = true -> assemble_prompt context template = template.
Proof.
  intros Ht. unfold assemble_prompt.
  destruct (dict_get "kubectl_get_pod_output" context) as [v|].
  - apply (replace_from_absent "{" "kubectl_get_pod_output}" v _ Ht).
  - rewrite substitute_items_brace_free by assumption.
    now apply re_sub_block_re_brace_free.
Qed.

Lemma assemble_prompt_brace_free_witness :
  assemble_prompt [("pod_description", "Status: Pending")]
                  "Respond with ONLY the category name."
  = "Respond with ONLY the category name.".
Proof.
  apply (@assemble_prompt_brace_free [("pod_description", "Status: Pending")]
           "Respond with ONLY the category name.").
  reflexivity.
Defined.

(** X14.  Keys whose placeholders do not occur in the template are not
    an error and have no effect: without the sentinel key, the prompt is
    the one the empty context gives, the template with its unfilled
    blocks stripped. *)
Theorem assemble_prompt_unused_keys (context : dict string) (template : string) :
  dict_get "kubectl_get_pod_output" context = None ->
  no_key_placeholder context template = true ->
  assemble_prompt context template = assemble_prompt [] template
  /\ assemble_prompt [] template = re_sub block_re "" template.
Proof.
  intros Hs Hk. unfold assemble_prompt. rewrite Hs. cbn [dict_get].
  now rewrite substitute_items_absent.
Qed.

Lemma assemble_prompt_unused_keys_witness :
  let template := "Data:" ++ nl ++ block "CONTAINER_LOGS" "container_logs" in
  no_key_placeholder [("events", "BackOff")] template = true
  /\ assemble_prompt [("events", "BackOff")] template
     = assemble_prompt [] template
  /\ assemble_prompt [] template = "Data:" ++ nl.
Proof.
  cbv zeta. split; [reflexivity|]. split; [|reflexivity].
  apply (proj1 (@assemble_prompt_unused_keys [("events", "BackOff")]
                  ("Data:" ++ nl ++ block "CONTAINER_LOGS" "container_logs")
                  eq_refl eq_refl)).
Defined.

(* ================================================================== *)
(** ** Further properties of [get_worker_node] and [get_pod_name] *)
(* ================================================================== *)

Lemma all_in_append cls a b :
  all_in cls (a ++ b) = all_in cls a && all_in cls b.
Proof.
  induction a as [|c a IH]; [reflexivity|].
  simpl. now rewrite IH, andb_assoc.
Qed.

(** The fields that [split()] returns are words. *)
Lemma split_ws_from_words s :
  forall cur,
    all_in (fun c => negb (isspace c)) cur = true ->
    Forall (fun w => is_word w = true) (split_ws_from cur s).
Proof.
  induction s as [|c s IH]; intros cur Hcur; cbn [split_ws_from].
  - destruct (cur =? "") eqn:E; constructor; [|constructor].
    unfold is_word. now rewrite E, Hcur.
  - destruct (isspace c) eqn:Hc.
    + destruct (cur =? "") eqn:E; [now apply IH|].
      constructor; [|now apply IH].
      unfold is_word. now rewrite E, Hcur.
    + apply IH. rewrite all_in_append, Hcur. simpl. now rewrite Hc.
Qed.

Lemma first_worker_word lines name :
  first_worker lines = Some name -> is_word name = true.
Proof.
  induction lines as [|line rest IH]; [discriminate|].
  cbn [first_worker]. destruct (strip line =? ""); [exact IH|].
  pose proof (@split_ws_from_words line "" eq_refl) as Hw.
  fold (split_ws line) in Hw.
  destruct (split_ws line) as [|w [|role more]]; [exact IH | |].
  - intros [= <-]. now inversion Hw.
  - destruct (role =? "<none>"); [|exact IH].
    intros [= <-]. now inversion Hw.
Qed.

(** X15.  A node name that [get_worker_node] returns is a non-empty
    word: the test [not node_for_taint] of [main] is true for [None]
    only. *)
Theorem get_worker_node_returns_a_word {W : Type} `{World W}
  (st : state W) (name : string) :
  fst (get_worker_node st) = Ok (Some name) ->
  is_word name = true /\ truthy (Some name) = true.
Proof.
  unfold get_worker_node, bind.
  destruct (run_command _ true st) as [[out | e] st1]; [|discriminate].
  unfold ret. cbn [fst]. intros [= Hw].
  apply first_worker_word in Hw. split; [assumption|].
  unfold is_word in Hw. apply andb_prop in Hw as [Hne _].
  destruct name; [discriminate | reflexivity].
Qed.

Lemma get_worker_node_returns_a_word_witness :
  fst (@get_worker_node nat (scripted quiet_script) start) = Ok (Some "node1")
  /\ is_word "node1" = true /\ truthy (Some "node1") = true.
Proof.
  split; [reflexivity|].
  apply (@get_worker_node_returns_a_word nat (scripted quiet_script) start).
  reflexivity.
Defined.



Lemma first_matching_prefix pattern lines name :
  first_matching pattern lines = Some name -> prefix pattern name = true.
Proof.
  induction lines as [|line rest IH]; [discriminate|].
  cbn [first_matching]. unfold startswith.
  destruct (prefix pattern (replace "pod/" "" line)) eqn:E; [|exact IH].
  now intros [= <-].
Qed.

Lemma poll_pods_prefix {W : Type} `{World W} pattern name attempts :
  forall st : state W,
    fst (poll_pods pattern attempts st) = Ok (Some name) ->
    prefix pattern name = true.
Proof.
  induction attempts as [|n IH]; intros st; [discriminate|].
  cbn [poll_pods].
  destruct (outcome_of "kubectl get pods -o name" st) as [p | e] eqn:E.
  - rewrite (bind_ok _ _ _ (run_command_tolerant _ _ E)).
    destruct (first_matching pattern (split LF (strip (stdout p)))) eqn:Em.
    + unfold ret. cbn [fst]. intros [= <-].
      now apply first_matching_prefix in Em.
    + rewrite (bind_ok _ _ _ (sleep_run 2 _)). apply IH.
  - rewrite (bind_raise _ _ _ (run_command_failed _ false _ E)).
    discriminate.
Qed.

Lemma prefix_nonempty p s : p <> "" -> prefix p s = true -> s <> "".
Proof. destruct p; [congruence|]. now destruct s. Qed.

(** X17.  A name that [get_pod_name] returns starts with the pattern;
    for a non-empty pattern, as all those of [SCENARIOS] are, it is not
    empty, so that [main] takes it as found. *)
Theorem get_pod_name_result_matches {W : Type} `{World W}
  (pattern name : string) (st : state W) :
  fst (get_pod_name pattern st) = Ok (Some name) ->
  startswith pattern name = true
  /\ (pattern <> "" -> truthy (Some name) = true).
Proof.
  unfold get_pod_name. rewrite (bind_ok _ _ _ (sleep_run 5 st)).
  intros Hp. apply poll_pods_prefix in Hp. split; [exact Hp|].
  intros Hne. pose proof (prefix_nonempty Hne Hp).
  destruct name; [congruence | reflexivity].
Qed.

Lemma get_pod_name_result_matches_witness :
  startswith "high-cpu-app-" "high-cpu-app-7d9f" = true
  /\ ("high-cpu-app-" <> "" -> truthy (Some "high-cpu-app-7d9f") = true).
Proof.
  apply (@get_pod_name_result_matches nat (scripted fifth_poll_script)
           "high-cpu-app-" "high-cpu-app-7d9f" start).
  reflexivity.
Defined.

Lemma poll_pods_bounded {W : Type} `{World W} pattern attempts :
  forall st : state W,
  exists added,
    trace (snd (poll_pods pattern attempts st)) = (trace st ++ added)%list
    /\ forallb polls added = true
    /\ List.length (filter is_listing added) <= attempts
    /\ seconds_slept added <= 2 * attempts.
Proof.
  induction attempts as [|n IH]; intros st.
  - exists []. cbn. rewrite app_nil_r. repeat split; lia.
  - cbn [poll_pods].
    destruct (outcome_of "kubectl get pods -o name" st) as [p | e] eqn:E.
    + rewrite (bind_ok _ _ _ (run_command_tolerant _ _ E)).
      destruct (first_matching pattern (split LF (strip (stdout p)))).
      * exists [Ran "kubectl get pods -o name" false (Completed p)].
        unfold ret. cbn [snd]. rewrite trace_ran, E.
        repeat split; cbn; lia.
      * rewrite (bind_ok _ _ _ (sleep_run 2 _)).
        destruct (IH (slept 2 (ran "kubectl get pods -o name" false st)))
          as (added & Et & Hp & Hc & Hs).
        exists (Ran "kubectl get pods -o name" false (Completed p)
                :: Slept 2 :: added).
        rewrite Et. unfold slept. cbn [trace]. rewrite trace_ran, E.
        rewrite <- !app_assoc. split; [reflexivity|].
        change (forallb polls (Ran "kubectl get pods -o name" false
                                   (Completed p) :: Slept 2 :: added))
          with (forallb polls added).
        change (filter is_listing (Ran "kubectl get pods -o name" false
                                       (Completed p) :: Slept 2 :: added))
          with (Ran "kubectl get pods -o name" false (Completed p)
                :: filter is_listing added).
        change (seconds_slept (Ran "kubectl get pods -o name" false
                                   (Completed p) :: Slept 2 :: added))
          with (2 + seconds_slept added).
        cbn [List.length]. repeat split; [assumption | lia | lia].
    + rewrite (bind_raise _ _ _ (run_command_failed _ false _ E)).
      exists [Ran "kubectl get pods -o name" false (RunFailed e)].
      cbn [snd]. rewrite trace_ran, E.
      repeat split; cbn; lia.
Qed.

(** X18.  [get_pod_name] is bounded in every world: whatever the
    listings hold, and whether it returns or raises, it does nothing but
    list the pods and pause, with at most five listings and at most
    fifteen seconds of pauses. *)
Theorem get_pod_name_bounded {W : Type} `{World W}
  (pattern : string) (st : state W) :
  exists added,
    trace (snd (get_pod_name pattern st)) = (trace st ++ added)%list
    /\ forallb polls added = true
    /\ List.length (filter is_listing added) <= 5
    /\ seconds_slept added <= 15.
Proof.
  unfold get_pod_name. rewrite (bind_ok _ _ _ (sleep_run 5 st)).
  destruct (poll_pods_bounded pattern 5 (slept 5 st))
    as (added & Et & Hp & Hc & Hs).
  exists (Slept 5 :: added). rewrite Et. unfold slept. cbn [trace].
  rewrite <- app_assoc. split; [reflexivity|].
  cbn [forallb filter is_listing seconds_slept].
  repeat split; [assumption | assumption | lia].
Qed.

(* ================================================================== *)
(** ** Further properties of [main] *)
(* ================================================================== *)

(** X19.  The cleanup is best effort: when the output of its commands
    is captured it returns normally, whatever their exit status. *)
Theorem cleanup_tolerates_exit_status {W : Type} `{World W}
  (node_for_taint : option string) (scenario_info : Scenario)
  (st : state W) (deleted : CompletedProcess) :
  outcome_of (delete_command scenario_info) st = Completed deleted ->
  (forall template,
      post_run_command scenario_info = Some template ->
      exists torn_down,
        outcome_of (format_node_name template node_for_taint)
          (ran (delete_command scenario_info) false st)
        = Completed torn_down) ->
  fst (cleanup node_for_taint scenario_info st) = Ok tt.
Proof.
  intros Ed Hpost. unfold cleanup.
  rewrite (bind_ok _ _ _ (run_command_tolerant _ _ Ed)).
  destruct (post_run_command scenario_info) as [template |]; [|reflexivity].
  destruct (Hpost template eq_refl) as [torn_down Et].
  now rewrite (bind_ok _ _ _ (run_command_tolerant _ _ Et)).
Qed.

Lemma cleanup_tolerates_exit_status_witness :
  @outcome_of nat (scripted taint_script) (delete_command taint_scenario) start
  = Completed (mkProcess 1 "" "Error from server (NotFound)")
  /\ fst (@cleanup nat (scripted taint_script) (Some "node1") taint_scenario
            start) = Ok tt.
Proof.
  split; [reflexivity|].
  apply (@cleanup_tolerates_exit_status nat (scripted taint_script)
           (Some "node1") taint_scenario start
           (mkProcess 1 "" "Error from server (NotFound)") eq_refl).
  intros template [= <-]. eexists. reflexivity.
Defined.

Lemma bind_assoc {W A B C} (m : M W A) (f : A -> M W B) (g : B -> M W C)
  (st : state W) :
  bind (bind m f) g st = bind m (fun a => bind (f a) g) st.
Proof. unfold bind. now destruct (m st) as [[a | e] st1]. Qed.

Lemma for_each_app {W : Type} `{World W} {A} (l1 l2 : list A)
  (body : A -> M W unit) (st : state W) :
  for_each (l1 ++ l2) body st
  = (for_each l1 body ;;; for_each l2 body) st.
Proof.
  revert st. induction l1 as [|x l1 IH]; intros st; [reflexivity|].
  cbn [app for_each]. rewrite bind_assoc.
  destruct (body x st) as [[[] | e] st1] eqn:E.
  - rewrite !(bind_ok _ _ _ E). apply IH.
  - now rewrite !(bind_raise _ _ _ E).
Qed.

(** X20.  A scenario that raises ends the whole run: [main] raises the
    same exception, in the state the scenario left, and none of the
    scenarios after it is run. *)
Theorem main_stops_at_the_first_failure {W : Type} `{World W}
  (st st0 st1 st2 : state W) (node_for_taint : option string)
  (before rest : dict Scenario) (scenario_id : string)
  (scenario_info : Scenario) (e : exn) :
  get_worker_node st = (Ok node_for_taint, st0) ->
  SCENARIOS = (before ++ (scenario_id, scenario_info) :: rest)%list ->
  for_each before
    (fun item => run_scenario node_for_taint (fst item) (snd item)) st0
  = (Ok tt, st1) ->
  run_scenario node_for_taint scenario_id scenario_info st1 = (Raise e, st2) ->
  main st = (Raise e, st2).
Proof.
  intros Hnode Hs Hbefore Hraise. unfold main.
  rewrite (bind_ok _ _ _ Hnode), Hs, for_each_app.
  rewrite (bind_ok _ _ _ Hbefore). cbn [for_each fst snd].
  now rewrite (bind_raise _ _ _ Hraise).
Qed.

Lemma main_stops_at_the_first_failure_witness :
  fst (@main nat (scripted apply_fails_script) start)
  = Raise (CalledProcessError
             "kubectl apply -f scenarios/1_insufficient_cpu.yaml" 1 ""
             "error: unable to recognize manifest")
  /\ world (snd (@main nat (scripted apply_fails_script) start)) = 2.
Proof.
  rewrite (@main_stops_at_the_first_failure nat (scripted apply_fails_script)
             start
             (snd (@get_worker_node nat (scripted apply_fails_script) start))
             (snd (@get_worker_node nat (scripted apply_fails_script) start))
             (snd (@run_scenario nat (scripted apply_fails_script)
                     (Some "node1") "1_insufficient_cpu"
                     (dict_get_default "1_insufficient_cpu" taint_scenario
                        SCENARIOS)
                     (snd (@get_worker_node nat (scripted apply_fails_script)
                             start))))
             (Some "node1") [] (tl SCENARIOS) "1_insufficient_cpu"
             (dict_get_default "1_insufficient_cpu" taint_scenario SCENARIOS)
             (CalledProcessError
                "kubectl apply -f scenarios/1_insufficient_cpu.yaml" 1 ""
                "error: unable to recognize manifest")).
  - split; vm_compute; reflexivity.
  - vm_compute. reflexivity.
  - reflexivity.
  - reflexivity.
  - vm_compute. reflexivity.
Defined.

(** X21.  The text [None] never gets into a taint command: a scenario of
    [SCENARIOS] that has a pre-run or a post-run command and is not
    skipped is run with a node name, and this name is what stands in
    the command in place of [{node_name}]. *)
Theorem taint_commands_get_a_node
  (node_for_taint : option string) (scenario_id : string)
  (scenario_info : Scenario) :
  In (scenario_id, scenario_info) SCENARIOS ->
  skipped node_for_taint scenario_id = false ->
  pre_run_command scenario_info <> None
  \/ post_run_command scenario_info <> None ->
  exists name,
    node_for_taint = Some name /\ name <> ""
    /\ forall template,
         format_node_name template node_for_taint
         = replace "{node_name}" name template.
Proof.
  intros Hin Hskip Hcmd.
  assert (Htaint : contains "taint" scenario_id = true).
  { cbn [SCENARIOS In] in Hin.
    repeat (destruct Hin as [Hin | Hin];
            [injection Hin as <- <-;
             try reflexivity;
             cbn [pre_run_command post_run_command] in Hcmd;
             destruct Hcmd as [Hc | Hc]; now elim Hc |]).
    destruct Hin. }
  unfold skipped in Hskip. rewrite Htaint in Hskip. cbn [andb] in Hskip.
  apply negb_false_iff in Hskip.
  destruct node_for_taint as [[|c name]|]; try discriminate.
  exists (String c name). repeat split. discriminate.
Qed.

Lemma taint_commands_get_a_node_witness :
  format_node_name
    "kubectl taint nodes {node_name} special-workload=true:NoSchedule"
    (Some "node1")
  = "kubectl taint nodes node1 special-workload=true:NoSchedule".
Proof.
  destruct (@taint_commands_get_a_node (Some "node1") "2_taint_toleration"
              taint_scenario)
    as (name & Hname & _ & Hformat).
  - simpl. tauto.
  - reflexivity.
  - left. discriminate.
  - rewrite Hformat. injection Hname as <-. reflexivity.
Defined.

Lemma open_read_ok {W : Type} `{World W} path (st : state W) text :
  fst (read_file path (world st)) = Some text ->
  open_read path st = (Ok text, opened path st).
Proof.
  unfold open_read, bind, interact, opened.
  destruct (read_file path (world st)) as [r w']. cbn [fst snd].
  now intros ->.
Qed.

(** X22.  When no pod is identified the scenario goes straight to its
    cleanup: if the setup goes well and none of the five listings holds
    a pod for the pattern, the iteration continues with the cleanup
    lines from the state the last poll left; no [kubectl get pod] is
    run and the model is not called. *)
Theorem run_scenario_pod_not_found {W : Type} `{World W}
  (node_for_taint : option string) (scenario_id : string)
  (scenario_info : Scenario) (st : state W) :
  skipped node_for_taint scenario_id = false ->
  setup_succeeds node_for_taint scenario_info st ->
  forallb (miss (pod_name_pattern scenario_info)
                (after_setup node_for_taint scenario_info st))
          (seq 0 5) = true ->
  run_scenario node_for_taint scenario_id scenario_info st
  = (cleanup node_for_taint scenario_info ;;; sleep 5 ;;; input ;;; ret tt)
      (poll_state 5 (after_setup node_for_taint scenario_info st)).
Proof.
  intros Hskip (Hpre & (text & Hread) & (p & Happly & Hrc)) Hmiss.
  unfold run_scenario. rewrite Hskip.
  assert (Epre :
    match pre_run_command scenario_info with
    | Some template =>
        run_command (format_node_name template node_for_taint) true ;;; ret tt
    | None => ret tt
    end st
    = (Ok tt, after_pre_run node_for_taint scenario_info st)).
  { unfold after_pre_run.
    destruct (pre_run_command scenario_info) as [template |]; [|reflexivity].
    destruct (Hpre template eq_refl) as (p0 & E0 & Hrc0).
    now rewrite (bind_ok _ _ _ (run_command_strict_ok _ _ E0 Hrc0)). }
  rewrite (bind_ok _ _ _ Epre).
  fold (manifest_path scenario_info).
  rewrite (bind_ok _ _ _ (open_read_ok _ _ Hread)).
  fold (apply_command scenario_info).
  rewrite (bind_ok _ _ _ (run_command_strict_ok _ _ Happly Hrc)).
  rewrite (bind_ok _ _ _ (sleep_run 15 _)).
  fold (after_setup node_for_taint scenario_info st).
  unfold get_pod_name at 1.
  rewrite bind_assoc. rewrite (bind_ok _ _ _ (sleep_run 5 _)).
  pose proof (@miss_seq _ _ _ _ _ Hmiss) as Hall.
  apply poll_pods_exhausted in Hall.
  rewrite (bind_ok _ _ _ Hall). reflexivity.
Qed.

Lemma run_scenario_pod_not_found_witness :
  trace (snd (@run_scenario nat (scripted quiet_script) (Some "node1")
                "4_invalid_image_name"
                (mkScenario
                   "A pod enters ImagePullBackOff due to a typo in the container image name."
                   "4_invalid_image_name.yaml" None None
                   "bad-image-pod" "pod" "bad-image-pod")
                start))
  = [Opened "scenarios/4_invalid_image_name.yaml" (Some "kind: Pod");
     Ran "kubectl apply -f scenarios/4_invalid_image_name.yaml" true
         (Completed (mkProcess 0 "" ""));
     Slept 15; Slept 5;
     Ran "kubectl get pods -o name" false (Completed (mkProcess 0 "" ""));
     Slept 2;
     Ran "kubectl get pods -o name" false (Completed (mkProcess 0 "" ""));
     Slept 2;
     Ran "kubectl get pods -o name" false (Completed (mkProcess 0 "" ""));
     Slept 2;
     Ran "kubectl get pods -o name" false (Completed (mkProcess 0 "" ""));
     Slept 2;
     Ran "kubectl get pods -o name" false (Completed (mkProcess 0 "" ""));
     Slept 2;
     Ran "kubectl delete pod bad-image-pod --grace-period=0 --force" false
         (Completed (mkProcess 0 "" ""));
     Slept 5; Asked (Some "")].
Proof.
  rewrite (@run_scenario_pod_not_found nat (scripted quiet_script)
             (Some "node1") "4_invalid_image_name"
             (mkScenario
                "A pod enters ImagePullBackOff due to a typo in the container image name."
                "4_invalid_image_name.yaml" None None
                "bad-image-pod" "pod" "bad-image-pod")
             start).
  - vm_compute. reflexivity.
  - reflexivity.
  - split; [discriminate|]. split; eexists; [|split]; reflexivity.
  - vm_compute. reflexivity.
Defined.

